(** * HTTP relay channel (nanobot/channels/http_relay.py)

    A shallow embedding of [HttpRelayChannel]: the pending-request registry,
    the outbound dispatcher [send], the inbound handler
    [_handle_message_post] with its delivery loop, and the metadata helpers
    [_normalize_metadata] and [_extract_request_id]. *)

From stdpp Require Import gmap strings list fin_maps.

Local Open Scope string_scope.
Local Open Scope list_scope.
Local Open Scope nat_scope.
#[local] Set Warnings "-register-all".

(** ** Python values

    The values that travel through request bodies and message metadata:
    what [json.loads] produces, which is also what the agent side puts into
    [OutboundMessage.metadata].  A float is kept as its IEEE-754 binary64 bit
    pattern. *)

Inductive pyval : Type :=
| PNone
| PBool (b : bool)
| PInt (z : Z)
| PFloat (bits : Z)
| PStr (s : string)
| PList (l : list pyval)
| PDict (d : gmap string pyval).

Abbreviation pydict := (gmap string pyval).

(** [bool(v)]: Python truthiness. *)
Definition truthy (v : pyval) : bool :=
  match v with
  | PNone => false
  | PBool b => b
  | PInt z => negb (z =? 0)%Z
  | PFloat bits => negb (Z.land bits (2 ^ 63 - 1) =? 0)%Z
  | PStr s => negb (String.eqb s "")
  | PList l => match l with [] => false | _ => true end
  | PDict d => negb (bool_decide (d = ∅))
  end.

(** [a or b] *)
Definition py_or (a b : pyval) : pyval := if truthy a then a else b.

(** ** Exceptions *)

Inductive exn : Type :=
| AttributeError
| TypeError
| TimeoutError
| CancelledError
| OtherError (name : string).

(** [isinstance(e, Exception)]: what an [except Exception] clause catches.
    [asyncio.CancelledError] derives from [BaseException]. *)
Definition is_Exception (e : exn) : bool :=
  match e with
  | CancelledError => false
  | _ => true
  end.

Inductive exc (A : Type) : Type :=
| Ok (a : A)
| Raise (e : exn).
Arguments Ok {A} a.
Arguments Raise {A} e.

#[global] Instance exc_ret : MRet exc := λ A a, Ok a.

#[global] Instance exc_bind : MBind exc := λ A B k m,
  match m with
  | Ok a => k a
  | Raise e => Raise e
  end.

(** [d.get(k, default)] on a dict object. *)
Definition dict_get (d : pydict) (k : string) (default : pyval) : pyval :=
  match d !! k with
  | Some v => v
  | None => default
  end.

(** [v.get(k, default)] on an arbitrary value: only a dict has the method. *)
Definition py_get (v : pyval) (k : string) (default : pyval) : exc pyval :=
  match v with
  | PDict d => Ok (dict_get d k default)
  | _ => Raise AttributeError
  end.

(** [isinstance(v, dict)] *)
Definition is_dict (v : pyval) : bool :=
  match v with
  | PDict _ => true
  | _ => false
  end.

(** ** Messages *)

(** Modelled from the spec: [OutboundMessage] of nanobot.bus.events, whose
    declaration is not among the sources; an outbound message is
    [{content: text, metadata: key-value mapping}], and the relay guards
    every use of the mapping with [msg.metadata or {}], so it may be
    [None]. *)
Record OutboundMessage : Type := {
  content : string;
  metadata : option pydict
}.

(** [msg.metadata or {}] *)
Definition metadata_or_empty (msg : OutboundMessage) : pyval :=
  match metadata msg with
  | Some d => py_or (PDict d) (PDict ∅)
  | None => PDict ∅
  end.

(** [request_id = ns.get("request_id")] followed by
    [isinstance(request_id, str) and request_id]. *)
Definition usable_request_id (v : pyval) : option string :=
  match v with
  | PStr s => if String.eqb s "" then None else Some s
  | _ => None
  end.

(** One namespace of [_extract_request_id]: the [isinstance(ns, dict)]
    guard, then the lookup. *)
Definition namespace_request_id (ns : pyval) : exc (option string) :=
  if is_dict ns then
    request_id ← py_get ns "request_id" PNone ;
    Ok (usable_request_id request_id)
  else Ok None.

Definition _extract_request_id (msg : OutboundMessage) : exc (option string) :=
  progress ← py_get (metadata_or_empty msg) "progress" (PDict ∅) ;
  found ← namespace_request_id progress ;
  match found with
  | Some request_id => Ok (Some request_id)
  | None =>
      relay ← py_get (metadata_or_empty msg) "http_relay" (PDict ∅) ;
      namespace_request_id relay
  end.

(** The progress flag as the delivery loop reads it (lines 157-161):
    [bool((outbound.metadata or {}).get("progress", {}).get("is_progress"))].
    The second [.get] is applied to whatever the first one returned. *)
Definition is_progress (outbound : OutboundMessage) : exc bool :=
  progress ← py_get (metadata_or_empty outbound) "progress" (PDict ∅) ;
  flag ← py_get progress "is_progress" PNone ;
  Ok (truthy flag).

(** ** The event stream and the handler's results *)

(** One call of [_write_sse_event(response, event, {"content": c})]. *)
Record sse_event : Type := {
  ev_type : string;
  ev_content : string
}.

Definition failure_notice : sse_event :=
  {| ev_type := "response";
     ev_content := "I could not process this message. Please retry." |}.

Definition timeout_notice : sse_event :=
  {| ev_type := "response"; ev_content := "Upstream response timed out." |}.

(** How a run of [_handle_message_post] ends. *)
Inductive http_result : Type :=
| JsonResponse (status : Z) (error : string)
| StreamResponse
| Raised (e : exn).

(** ** The handler as a coroutine

    [_handle_message_post] only gives up control at its [await]s.  A handler
    state names the await it is suspended in and carries its live local
    variables; [out] is what has been written to the stream so far.
    - [HPrepare]: [await response.prepare(request)] (line 124), registered;
    - [HPublish]: [await self._handle_message(...)] (line 126);
    - [HAwait]: [await asyncio.wait_for(queue.get(), timeout=900)] (line 148);
    - [HWrite]: [await self._write_sse_event(...)] (lines 139, 150, 163), with
      what follows the write: [return response] or the next iteration;
    - [HDone]: the handler has been left, with the request id it held. *)

Inductive after_write : Type :=
| ThenReturn
| ThenLoop.

Inductive hstate : Type :=
| HPrepare (request_id : string) (md : pydict)
| HPublish (request_id : string) (md : pydict)
| HAwait (request_id : string) (out : list sse_event)
| HWrite (request_id : string) (out : list sse_event) (ev : sse_event)
         (k : after_write)
| HDone (request_id : option string) (out : list sse_event)
        (res : http_result).

(** The [timeout=] argument of the await a handler is suspended in: only
    [asyncio.wait_for(queue.get(), timeout=900)] has one. *)
Definition await_timeout (h : hstate) : option nat :=
  match h with
  | HAwait _ _ => Some 900
  | _ => None
  end.

(** ** The channel object

    [_pending] maps a request id to a queue object.  Queue objects are
    shared between the registry, [send], [stop] and the handler that made
    them, so they live in a store of their own, addressed by identity; a
    handler's queue has the identity of the handler's task. *)
Record channel : Type := {
  _running : bool;
  _pending : gmap string nat;
  queues : gmap nat (list OutboundMessage);
  tasks : list hstate
}.

(** [HttpRelayChannel.__init__] *)
Definition new_channel : channel :=
  {| _running := false; _pending := ∅; queues := ∅; tasks := [] |}.

Definition set_pending (f : gmap string nat → gmap string nat)
    (ch : channel) : channel :=
  {| _running := _running ch; _pending := f (_pending ch);
     queues := queues ch; tasks := tasks ch |}.

Definition set_queues
    (f : gmap nat (list OutboundMessage) → gmap nat (list OutboundMessage))
    (ch : channel) : channel :=
  {| _running := _running ch; _pending := _pending ch;
     queues := f (queues ch); tasks := tasks ch |}.

Definition set_tasks (f : list hstate → list hstate) (ch : channel)
    : channel :=
  {| _running := _running ch; _pending := _pending ch;
     queues := queues ch; tasks := f (tasks ch) |}.

(** The items of queue object [q]. *)
Definition queue_items (q : nat) (ch : channel) : list OutboundMessage :=
  default [] (queues ch !! q).

(** [queue.put(msg)] on an unbounded [asyncio.Queue]. *)
Definition queue_put (q : nat) (msg : OutboundMessage) (ch : channel)
    : channel :=
  set_queues (<[q := queue_items q ch ++ [msg]]>) ch.

(** ** [send] (lines 71-86) *)
Definition send (msg : OutboundMessage) (ch : channel) : exc channel :=
  request_id ← _extract_request_id msg ;
  match request_id with
  | None => Ok ch
  | Some rid =>
      if String.eqb rid "" then Ok ch
      else match _pending ch !! rid with
           | None => Ok ch
           | Some queue => Ok (queue_put queue msg ch)
           end
  end.

(** ** [stop] (lines 58-64): every queue still registered is emptied, then
    the registry is cleared.  The web runner is the transport's. *)
Definition drain (qs : list nat) (store : gmap nat (list OutboundMessage))
    : gmap nat (list OutboundMessage) :=
  foldr (λ q st, <[q := []]> st) store qs.

Definition stop (ch : channel) : channel :=
  {| _running := false;
     _pending := ∅;
     queues := drain (map_to_list (_pending ch)).*2 (queues ch);
     tasks := tasks ch |}.

(** ** [_handle_message_post] up to its first await after the body *)

(** [_parse_request_body] (lines 175-185); [json] is how
    [await request.json()] ended. *)
Definition _parse_request_body (json : exc pyval) : exc (pydict + http_result) :=
  match json with
  | Raise e =>
      if is_Exception e then Ok (inr (JsonResponse 400 "Invalid JSON body"))
      else Raise e
  | Ok (PDict body) => Ok (inl body)
  | Ok _ => Ok (inr (JsonResponse 400 "Payload must be an object"))
  end.

(** [_normalize_metadata] (lines 187-189) *)
Definition _normalize_metadata (metadata : pyval) : pydict :=
  match metadata with
  | PDict d => d
  | _ => ∅
  end.

(** [d.setdefault(k, v)] *)
Definition setdefault (d : pydict) (k : string) (v : pyval) : pydict :=
  match d !! k with
  | Some _ => d
  | None => <[k := v]> d
  end.

(** [target[k] = x]: item assignment with a string key. *)
Definition set_item (target : pyval) (k : string) (x : pyval) : exc pyval :=
  match target with
  | PDict d => Ok (PDict (<[k := x]> d))
  | _ => Raise TypeError
  end.

(** Lines 105-107.  [metadata["http_relay"]] is the object stored under the
    key, so the assignment to its ["request_id"] shows in [metadata]. *)
Definition merge_request_id (metadata : pyval) (request_id : string)
    : exc pydict :=
  let metadata := _normalize_metadata metadata in
  let metadata := setdefault metadata "http_relay" (PDict ∅) in
  relay ← set_item (dict_get metadata "http_relay" PNone) "request_id"
                   (PStr request_id) ;
  Ok (<["http_relay" := relay]> metadata).

Definition is_None (v : pyval) : bool :=
  match v with
  | PNone => true
  | _ => false
  end.

(** Lines 109-111: a fresh queue object, stored under the request id. *)
Definition register (request_id : string) (queue : nat) (ch : channel)
    : channel :=
  set_pending (<[request_id := queue]>) (set_queues (<[queue := []]>) ch).

(** The [finally] clause (lines 171-173): [self._pending.pop(request_id, None)]. *)
Definition unregister (request_id : string) (ch : channel) : channel :=
  set_pending (delete request_id) ch.

(** Lines 89-124, run by task [tid]: from the parsed body to the await of
    [response.prepare]; [request_id] is what [uuid4().hex] returned. *)
Definition handle_post (json : exc pyval) (request_id : string) (tid : nat)
    (ch : channel) : channel * hstate :=
  match _parse_request_body json with
  | Raise e => (ch, HDone None [] (Raised e))
  | Ok (inr resp) => (ch, HDone None [] resp)
  | Ok (inl body) =>
      let sender_id :=
        py_or (dict_get body "senderId" PNone) (dict_get body "sender_id" PNone) in
      let chat_id :=
        py_or (dict_get body "chatId" PNone) (dict_get body "chat_id" PNone) in
      let content := dict_get body "content" PNone in
      let metadata := py_or (dict_get body "metadata" PNone) (PDict ∅) in
      if negb (truthy sender_id) || negb (truthy chat_id) || is_None content
      then (ch, HDone None [] (JsonResponse 400 "Missing sender_id/chat_id/content"))
      else match merge_request_id metadata request_id with
           | Raise e => (ch, HDone None [] (Raised e))
           | Ok metadata =>
               (register request_id tid ch, HPrepare request_id metadata)
           end
  end.

(** ** Resuming a suspended handler

    How the await a handler is suspended in ended. *)
Inductive resolution : Type :=
| Returns
| Raises (e : exn).

(** The event for a dequeued message (lines 162-167) and what follows its
    write (lines 168-169). *)
Definition delivery_event (progress : bool) (outbound : OutboundMessage)
    : sse_event :=
  {| ev_type := if progress then "progress" else "response";
     ev_content := content outbound |}.

Definition delivery_next (progress : bool) : after_write :=
  if progress then ThenLoop else ThenReturn.

(** An exception leaves the [try] block: the [finally] clause runs and the
    exception goes on to the caller. *)
Definition propagate (rid : string) (out : list sse_event) (e : exn)
    (ch : channel) : channel * hstate :=
  (unregister rid ch, HDone (Some rid) out (Raised e)).

(** Lines 124-173, from one await to the next.  [tid] is the handler's task
    and the identity of its queue. *)
Definition resume (tid : nat) (r : resolution) (h : hstate) (ch : channel)
    : channel * hstate :=
  match h with
  | HPrepare rid md =>
      match r with
      | Returns => (ch, HPublish rid md)
      | Raises e => propagate rid [] e ch
      end
  | HPublish rid md =>
      match r with
      | Returns => (ch, HAwait rid [])
      | Raises e =>
          if is_Exception e then (ch, HWrite rid [] failure_notice ThenReturn)
          else propagate rid [] e ch
      end
  | HAwait rid out =>
      match r with
      | Returns =>
          match queue_items tid ch with
          | [] => (ch, h) (* nothing to get yet: still suspended *)
          | outbound :: rest =>
              let ch := set_queues (<[tid := rest]>) ch in
              match is_progress outbound with
              | Raise e => propagate rid out e ch
              | Ok p =>
                  (ch, HWrite rid out (delivery_event p outbound)
                              (delivery_next p))
              end
          end
      | Raises TimeoutError => (ch, HWrite rid out timeout_notice ThenReturn)
      | Raises e => propagate rid out e ch
      end
  | HWrite rid out ev k =>
      match r with
      | Returns =>
          match k with
          | ThenLoop => (ch, HAwait rid (out ++ [ev]))
          | ThenReturn =>
              (unregister rid ch, HDone (Some rid) (out ++ [ev]) StreamResponse)
          end
      | Raises e => propagate rid out e ch
      end
  | HDone _ _ _ => (ch, h)
  end.

(** ** The event loop

    Everything that runs on the channel, one atomic piece at a time: a new
    POST reaching the handler, a suspended handler being resumed, the bus
    calling [send], and [stop]. *)
Inductive event : Type :=
| Post (json : exc pyval) (request_id : string)
| Resume (tid : nat) (r : resolution)
| Send (msg : OutboundMessage)
| Stop.

Definition step (ev : event) (ch : channel) : channel :=
  match ev with
  | Post json rid =>
      let '(ch', h) := handle_post json rid (length (tasks ch)) ch in
      set_tasks (λ ts, ts ++ [h]) ch'
  | Resume tid r =>
      match tasks ch !! tid with
      | None => ch
      | Some h =>
          let '(ch', h') := resume tid r h ch in
          set_tasks (<[tid := h']>) ch'
      end
  | Send msg =>
      match send msg ch with
      | Ok ch' => ch'
      | Raise _ => ch
      end
  | Stop => stop ch
  end.

Definition run (tr : list event) (ch : channel) : channel :=
  foldl (λ ch ev, step ev ch) ch tr.

(** Observations on handler states. *)
Definition request_id_of (h : hstate) : option string :=
  match h with
  | HPrepare rid _ | HPublish rid _ | HAwait rid _ | HWrite rid _ _ _ => Some rid
  | HDone orid _ _ => orid
  end.

Definition finished (h : hstate) : bool :=
  match h with
  | HDone _ _ _ => true
  | _ => false
  end.

(** The stream is open once [response.prepare] has returned and until the
    handler is left. *)
Definition stream_open (h : hstate) : bool :=
  match h with
  | HPublish _ _ | HAwait _ _ | HWrite _ _ _ _ => true
  | _ => false
  end.

Definition written (h : hstate) : list sse_event :=
  match h with
  | HPrepare _ _ | HPublish _ _ => []
  | HAwait _ out | HWrite _ out _ _ | HDone _ out _ => out
  end.

Definition is_stop (ev : event) : bool :=
  match ev with
  | Stop => true
  | _ => false
  end.

Definition minted_by (ev : event) : option string :=
  match ev with
  | Post _ rid => Some rid
  | _ => None
  end.

(** * Notions used in the statements *)

(** ** Requests and the registry *)

Definition minted (tr : list event) : list string := omap minted_by tr.

(** The request ids held by handlers were all minted by some POST. *)
Definition ids_minted (ids : list string) (ch : channel) : Prop :=
  ∀ tid h r, tasks ch !! tid = Some h → request_id_of h = Some r → r ∈ ids.

(** The invariant of one request: the handler [tid] holds id [rid], no
    other handler does, and the registry has the entry exactly until the
    handler is left, unless [stop] has cleared it. *)
Definition entry_inv (stopped : bool) (tid : nat) (rid : string)
    (ch : channel) : Prop :=
  (∀ tid' h', tasks ch !! tid' = Some h' → tid' ≠ tid →
              request_id_of h' ≠ Some rid) ∧
  ∃ h, tasks ch !! tid = Some h ∧ request_id_of h = Some rid ∧
       if finished h then _pending ch !! rid = None
       else stopped = false → _pending ch !! rid = Some tid.

Definition missing_field (body : pydict) : Prop :=
  (body !! "senderId" = None ∧ body !! "sender_id" = None) ∨
  (body !! "chatId" = None ∧ body !! "chat_id" = None) ∨
  body !! "content" = None.

Definition missing_fields_response : http_result :=
  JsonResponse 400 "Missing sender_id/chat_id/content".

(** ** The delivery loop *)

(** The progress flag of a message, read off its metadata the way the data
    model describes it: the ["is_progress"] entry of the ["progress"]
    mapping, if there is one. *)
Definition progress_flag (msg : OutboundMessage) : option pyval :=
  md ← metadata msg ;
  p ← md !! "progress" ;
  match p with
  | PDict d => d !! "is_progress"
  | _ => None
  end.

Definition flag_set (msg : OutboundMessage) : bool :=
  match progress_flag msg with
  | Some v => truthy v
  | None => false
  end.

(** Whether the ["progress"] entry, if present, is a mapping. *)
Definition progress_well_shaped (msg : OutboundMessage) : bool :=
  match metadata msg with
  | Some md =>
      match md !! "progress" with
      | Some v => is_dict v
      | None => true
      end
  | None => true
  end.

(** ** Shape of a stream

    What has been written is a run of "progress" events; a handler that
    returns the stream has closed it with exactly one "response" event. *)

Definition all_progress (out : list sse_event) : Prop :=
  Forall (λ e, ev_type e = "progress") out.

Definition stream_wf (h : hstate) : Prop :=
  match h with
  | HPrepare _ _ | HPublish _ _ => True
  | HAwait _ out => all_progress out
  | HWrite _ out ev ThenLoop => all_progress out ∧ ev_type ev = "progress"
  | HWrite _ out ev ThenReturn => all_progress out ∧ ev_type ev = "response"
  | HDone _ out StreamResponse =>
      ∃ out' ev, out = out' ++ [ev] ∧ all_progress out' ∧
                 ev_type ev = "response"
  | HDone _ out (Raised _) => all_progress out
  | HDone _ out (JsonResponse _ _) => out = []
  end.

(** ** Time

    A logical clock in seconds.  Time passes while the handler is
    suspended: in [asyncio.wait_for] (line 148), whose contract is that the
    awaited [queue.get()] returns the next item if one is in the queue
    before [timeout] seconds have passed since the call and that
    [TimeoutError] is raised at that moment otherwise; and in the write of
    an event (line 163), which lasts as long as the transport takes.  The
    loop calls [wait_for] again only when that write has returned.

    An arrival is a message the bus hands to [send], with the time of the
    call and the time the write of its event will take. *)
Record arrival : Type := {
  sent_at : nat;
  msg_of : OutboundMessage;
  write_takes : nat
}.

(** [deliver] plays the arrivals, in the order of their sends, against
    handler [tid], which called [wait_for] at [now].  A message that [send]
    does not put into the handler's queue leaves the wait running.  One
    that it does is taken by the pending get when it comes, or at once if
    it was sent while the handler was still writing (it has been waiting in
    the queue since: the return of a write does not look at the queue, so
    playing the send when the handler waits again gives the same channel);
    its event is then written, and the handler waits again when the write
    has returned.  The result is the channel afterwards and, if the timeout
    fired, when. *)
Fixpoint deliver (tid now : nat) (arrivals : list arrival)
    (ch : channel) {struct arrivals} : channel * option nat :=
  match tasks ch !! tid ≫= await_timeout with
  | None => (ch, None)
  | Some timeout =>
      let expire :=
        (run [Resume tid (Raises TimeoutError); Resume tid Returns] ch,
         Some (now + timeout)) in
      match arrivals with
      | [] => expire
      | x :: rest =>
          if (sent_at x <? now + timeout)%nat then
            let ch1 := step (Send (msg_of x)) ch in
            match queue_items tid ch1 with
            | [] => deliver tid now rest ch1
            | _ :: _ =>
                deliver tid (Nat.max now (sent_at x) + write_takes x) rest
                        (run [Resume tid Returns; Resume tid Returns] ch1)
            end
          else expire
      end
  end.

(** The time at which the [i]-th wait of the loop begins, that is, at which
    [wait_for] is called for the [i]-th time: [start] for the first; for
    the others, when the write of the previous event has returned. *)
Fixpoint wait_begins (start : nat) (arrivals : list arrival) (i : nat)
    : nat :=
  match i, arrivals with
  | S j, x :: rest =>
      wait_begins (Nat.max start (sent_at x) + write_takes x) rest j
  | _, _ => start
  end.

(** The time of the last dequeue before the [i]-th wait: the [i-1]-th
    message is taken when the wait before finds it; before the first wait
    there is none, and the loop's start stands in. *)
Definition last_dequeue (start : nat) (arrivals : list arrival) (i : nat)
    : nat :=
  match i with
  | 0 => start
  | S j =>
      match arrivals !! j with
      | Some x => Nat.max (wait_begins start arrivals j) (sent_at x)
      | None => start
      end
  end.

(** The [k] messages before the [k]-th wait were progress messages, each
    in the queue within 900 seconds of the beginning of the wait that took
    it, so that the loop does reach its [k]-th wait. *)
Definition reaches_wait (start : nat) (arrivals : list arrival) (k : nat)
    : Prop :=
  k ≤ length arrivals ∧
  ∀ i x, i < k → arrivals !! i = Some x →
         sent_at x < wait_begins start arrivals i + 900 ∧
         flag_set (msg_of x) = true.

(** The loop reaches its [k]-th wait and no message comes for 900 seconds
    after that wait began. *)
Definition silent_window (start : nat) (arrivals : list arrival) (k : nat)
    : Prop :=
  reaches_wait start arrivals k ∧
  ∀ x, arrivals !! k = Some x →
       wait_begins start arrivals k + 900 ≤ sent_at x.

(** The condition of the specification: the loop reaches its [k]-th wait
    and no message is dequeued for 900 seconds after the last dequeue. *)
Definition silent_since_dequeue (start : nat) (arrivals : list arrival)
    (k : nat) : Prop :=
  reaches_wait start arrivals k ∧
  ∀ x, arrivals !! k = Some x →
       last_dequeue start arrivals k + 900 ≤ sent_at x.

Definition addressed (rid : string) (msg : OutboundMessage) : Prop :=
  _extract_request_id msg = Ok (Some rid).

Definition progress_events (msgs : list arrival) : list sse_event :=
  (λ x, {| ev_type := "progress"; ev_content := content (msg_of x) |})
    <$> msgs.

(** Every registry entry leads to the queue of a handler that has not been
    left and holds the entry's id. *)
Definition entries_live (ch : channel) : Prop :=
  ∀ rid q, _pending ch !! rid = Some q →
    ∃ h, tasks ch !! q = Some h ∧ request_id_of h = Some rid ∧
         finished h = false.

(** Handler [tid] is resumed through [n] rounds of the loop: the get
    returns, then the write returns. *)
Definition resumes (tid n : nat) : list event :=
  repeat (Resume tid Returns) (2 * n).

(** ** Requests the handler accepts *)

(** The caller's [metadata], as line 96 reads it: [body.get("metadata") or {}]. *)
Definition caller_metadata_of (body : pydict) : pyval :=
  py_or (dict_get body "metadata" PNone) (PDict ∅).

(** The caller's [http_relay] entry can take the request id: it is absent,
    or a mapping. *)
Definition relay_assignable (metadata : pyval) : bool :=
  match _normalize_metadata metadata !! "http_relay" with
  | Some v => is_dict v
  | None => true
  end.

(** Either spelling of a field holds a truthy value. *)
Definition has_truthy (body : pydict) (camel snake : string) : bool :=
  truthy (dict_get body camel PNone) || truthy (dict_get body snake PNone).

Definition acceptable (body : pydict) : bool :=
  has_truthy body "senderId" "sender_id" &&
  has_truthy body "chatId" "chat_id" &&
  negb (is_None (dict_get body "content" PNone)) &&
  relay_assignable (caller_metadata_of body).

(** ** The wire format of an event

    [_write_sse_event] (lines 206-215).  Here a Python [str] is the
    sequence of its code points (each below 1114112, and possibly a lone
    surrogate), and [bytes] is a sequence of numbers below 256. *)

Definition LF : N := 10.
Definition CR : N := 13.
Definition QUOTE : N := 34.
Definition BACKSLASH : N := 92.

(** The code points of an ASCII literal of the source. *)
Definition literal (s : string) : list N :=
  Ascii.N_of_ascii <$> String.list_ascii_of_string s.

(** A lower-case hexadecimal digit, as ['{0:04x}'.format] prints it. *)
Definition hex_digit (n : N) : N :=
  (if n <? 10 then 48 + n else 87 + n)%N.

(** What [json.dumps(..., ensure_ascii=False)] puts for one character of a
    string: the quote and the backslash get a backslash in front;
    backspace (8), form feed (12), line feed, carriage return and tab (9)
    become a backslash and their letter; the other characters below U+0020
    become [\u00xx]; every other character stays. *)
Definition json_escape_char (c : N) : list N :=
  (if c =? QUOTE then [BACKSLASH; QUOTE]
   else if c =? BACKSLASH then [BACKSLASH; BACKSLASH]
   else if c =? 8 then BACKSLASH :: literal "b"
   else if c =? 12 then BACKSLASH :: literal "f"
   else if c =? LF then BACKSLASH :: literal "n"
   else if c =? CR then BACKSLASH :: literal "r"
   else if c =? 9 then BACKSLASH :: literal "t"
   else if c <? 32 then
     BACKSLASH :: literal "u00" ++ [hex_digit (c / 16); hex_digit (c mod 16)]
   else [c])%N.

Fixpoint json_escape (s : list N) : list N :=
  match s with
  | [] => []
  | c :: rest => json_escape_char c ++ json_escape rest
  end.

Definition json_string (s : list N) : list N :=
  [QUOTE] ++ json_escape s ++ [QUOTE].

(** [json.dumps({"content": c}, ensure_ascii=False)] *)
Definition json_content (c : list N) : list N :=
  literal "{" ++ json_string (literal "content") ++ literal ": "
    ++ json_string c ++ literal "}".

(** A surrogate code point, U+D800 to U+DFFF. *)
Definition is_surrogate (c : N) : bool :=
  ((55296 <=? c) && (c <=? 57343))%N.

(** [str.encode()]: UTF-8, strict, which refuses surrogates. *)
Definition utf8_char (c : N) : exc (list N) :=
  (if c <? 128 then Ok [c]
   else if c <? 2048 then Ok [192 + c / 64; 128 + c mod 64]
   else if is_surrogate c then Raise (OtherError "UnicodeEncodeError")
   else if c <? 65536 then
     Ok [224 + c / 4096; 128 + c / 64 mod 64; 128 + c mod 64]
   else
     Ok [240 + c / 262144; 128 + c / 4096 mod 64; 128 + c / 64 mod 64;
         128 + c mod 64])%N.

Fixpoint encode (s : list N) : exc (list N) :=
  match s with
  | [] => Ok []
  | c :: rest =>
      b ← utf8_char c ;
      bs ← encode rest ;
      Ok (b ++ bs)
  end.

(** The bytes handed to [response.write] for one event, or the exception
    of [.encode()], raised before anything is written. *)
Definition _write_sse_event (event content : list N) : exc (list N) :=
  encode (literal "event: " ++ event ++ [LF]
            ++ literal "data: " ++ json_content content ++ [LF; LF]).

(** Neither a line feed nor a carriage return. *)
Definition no_line_break (bs : list N) : Prop :=
  Forall (λ b, b ≠ LF ∧ b ≠ CR) bs.

(** ** Sample requests and messages *)

Definition hello_body : pyval :=
  PDict {[ "sender_id" := PStr "u1"; "chat_id" := PStr "c1";
           "content" := PStr "hi" ]}.

Definition progress_msg (rid txt : string) (flag : bool) : OutboundMessage :=
  {| content := txt;
     metadata := Some {[ "progress" :=
                           PDict {[ "is_progress" := PBool flag;
                                    "request_id" := PStr rid ]} ]} |}.

Definition scenario : list event :=
  [ Post (Ok hello_body) "r1"; Resume 0 Returns; Resume 0 Returns;
    Send (progress_msg "r1" "thinking..." true); Resume 0 Returns;
    Resume 0 Returns;
    Send (progress_msg "r1" "hello back" false); Resume 0 Returns;
    Resume 0 Returns ].

Definition both_namespaces : OutboundMessage :=
  {| content := "hi";
     metadata :=
       Some {[ "progress" := PDict {[ "request_id" := PStr "a" ]};
               "http_relay" := PDict {[ "request_id" := PStr "b" ]} ]} |}.

Definition other_channel_msg : OutboundMessage :=
  {| content := "for telegram"; metadata := Some {[ "progress" := PStr "x" ]} |}.

Definition no_content_body : pydict :=
  {[ "sender_id" := PStr "u1"; "chat_id" := PStr "c1" ]}.

Definition relay_body (caller_metadata : pyval) : pyval :=
  PDict {[ "sender_id" := PStr "u1"; "chat_id" := PStr "c1";
           "content" := PStr "hi"; "metadata" := caller_metadata ]}.

Definition caller_relay_metadata : pydict :=
  {[ "http_relay" := PDict {[ "request_id" := PStr "caller" ]} ]}.

Definition caller_metadata : pydict :=
  {[ "trace" := PStr "t-1";
     "http_relay" := PDict {[ "origin" := PStr "router" ]} ]}.

(** A message that [send] routes by its relay namespace while its
    ["progress"] entry is a plain string. *)
Definition stray_progress_msg (rid : string) : OutboundMessage :=
  {| content := "still working";
     metadata := Some {[ "progress" := PStr "working";
                         "http_relay" := PDict {[ "request_id" := PStr rid ]} ]} |}.

Definition timed_arrivals : list arrival :=
  [ {| sent_at := 800; msg_of := progress_msg "r1" "step 1" true;
       write_takes := 5 |};
    {| sent_at := 1600; msg_of := progress_msg "r1" "step 2" true;
       write_takes := 5 |};
    {| sent_at := 2600; msg_of := progress_msg "r1" "done" false;
       write_takes := 0 |} ].

(** A progress event whose write takes ten seconds, and the answer 905
    seconds after the progress message. *)
Definition slow_write_arrivals : list arrival :=
  [ {| sent_at := 0; msg_of := progress_msg "r1" "step 1" true;
       write_takes := 10 |};
    {| sent_at := 905; msg_of := progress_msg "r1" "done" false;
       write_takes := 0 |} ].

Definition waiting_r1 : channel :=
  run [Post (Ok hello_body) "r1"; Resume 0 Returns; Resume 0 Returns]
      new_channel.

Definition empty_content_body : pydict :=
  {[ "senderId" := PStr "u1"; "chat_id" := PInt 7; "content" := PStr "" ]}.

Definition empty_sender_body : pydict :=
  {[ "sender_id" := PStr ""; "chat_id" := PStr "c1"; "content" := PStr "hi" ]}.

(** A content that tries to end its event and start another one: two
    line feeds, then ["event: response"]. *)
Definition multi_line_content : list N :=
  [LF; LF] ++ literal "event: response".

(** * Properties *)

(** ** The scenario of the specification *)

Example scenario_ok :
  let ch := run scenario new_channel in
  tasks ch !! 0 =
    Some (HDone (Some "r1")
            [ {| ev_type := "progress"; ev_content := "thinking..." |};
              {| ev_type := "response"; ev_content := "hello back" |} ]
            StreamResponse)
  ∧ _pending ch !! "r1" = None.
Proof. vm_compute. split; reflexivity. Qed.

(** ** Correlation-id extraction *)

Lemma metadata_or_empty_dict (msg : OutboundMessage) :
  metadata_or_empty msg = PDict (default ∅ (metadata msg)).
Proof.
  unfold metadata_or_empty, py_or. destruct (metadata msg) as [d|]; [|done].
  simpl. case_bool_decide; simpl; [by subst|done].
Qed.

Lemma usable_request_id_nonempty (v : pyval) (s : string) :
  usable_request_id v = Some s → v = PStr s ∧ s ≠ "".
Proof.
  destruct v; simpl; try done.
  destruct (String.eqb_spec s0 ""); [done|]. by intros [= ->].
Qed.

Lemma usable_request_id_str (s : string) :
  s ≠ "" → usable_request_id (PStr s) = Some s.
Proof. intros Hs. simpl. by destruct (String.eqb_spec s ""). Qed.

Lemma namespace_request_id_total (ns : pyval) :
  ∃ r, namespace_request_id ns = Ok r ∧
       (r = None ∨ ∃ s, r = Some s ∧ s ≠ "").
Proof.
  unfold namespace_request_id. destruct ns; simpl; eauto.
  eexists; split; [done|].
  destruct (usable_request_id _) as [s|] eqn:E; [|by left].
  right. apply usable_request_id_nonempty in E as [_ ?]. eauto.
Qed.

Lemma extract_unfold (msg : OutboundMessage) :
  _extract_request_id msg =
    let md := default ∅ (metadata msg) in
    found ← namespace_request_id (dict_get md "progress" (PDict ∅)) ;
    match found with
    | Some request_id => Ok (Some request_id)
    | None => namespace_request_id (dict_get md "http_relay" (PDict ∅))
    end.
Proof. unfold _extract_request_id. by rewrite metadata_or_empty_dict. Qed.

(** C10. [_extract_request_id] is total: for every outbound message, with
    metadata absent or of any shape, it returns without raising, and what
    it returns is either [None] or a non-empty string. *)
Theorem extract_request_id_total (msg : OutboundMessage) :
  ∃ r, _extract_request_id msg = Ok r ∧
       (r = None ∨ ∃ s, r = Some s ∧ s ≠ "").
Proof.
  rewrite extract_unfold. simpl.
  destruct (namespace_request_id_total
              (dict_get (default ∅ (metadata msg)) "progress" (PDict ∅)))
    as (r & -> & Hr).
  simpl. destruct Hr as [->|(s & -> & Hs)].
  - apply namespace_request_id_total.
  - eexists; split; [done|]. right; eauto.
Qed.

(** C6. Extraction checks both namespaces and prefers the progress one: a
    non-empty string at metadata["progress"]["request_id"] is returned
    whatever metadata["http_relay"] holds, and the relay namespace decides
    only when the progress namespace yields no usable id. *)
Theorem extract_prefers_progress (msg : OutboundMessage) (md : pydict) :
  metadata msg = Some md →
  (∀ p s, md !! "progress" = Some (PDict p) →
          p !! "request_id" = Some (PStr s) → s ≠ "" →
          _extract_request_id msg = Ok (Some s)) ∧
  (namespace_request_id (dict_get md "progress" (PDict ∅)) = Ok None →
   _extract_request_id msg =
     namespace_request_id (dict_get md "http_relay" (PDict ∅))).
Proof.
  intros Hmd. rewrite extract_unfold, Hmd.
  change (default ∅ (Some md)) with md. cbv zeta. split.
  - intros p s Hp Hs Hne. unfold dict_get. rewrite Hp.
    unfold namespace_request_id, py_get, dict_get. cbn [is_dict].
    rewrite Hs. cbn [mbind exc_bind].
    by rewrite usable_request_id_str.
  - by intros ->.
Qed.

Lemma extract_prefers_progress_witness :
  _extract_request_id both_namespaces = Ok (Some "a").
Proof.
  refine (proj1 (extract_prefers_progress both_namespaces _ eq_refl)
                {[ "request_id" := PStr "a" ]} "a" _ _ _).
  - vm_compute. reflexivity.
  - vm_compute. reflexivity.
  - discriminate.
Defined.

(** ** The dispatcher *)

Lemma send_total (msg : OutboundMessage) (ch : channel) :
  ∃ ch', send msg ch = Ok ch'.
Proof.
  unfold send. destruct (extract_request_id_total msg) as (r & -> & _).
  simpl. destruct r as [rid|]; [|eauto].
  destruct (String.eqb rid ""); [eauto|].
  destruct (_pending ch !! rid); eauto.
Qed.

(** C5. A message with no resolvable correlation id, or with one that has
    no entry in the registry, makes [send] return normally with the channel
    (registry and every queue) exactly as it was; whatever runs afterwards
    runs as if the message had never been sent, so it reaches no stream. *)
Theorem send_unroutable_dropped (msg : OutboundMessage) (ch : channel) :
  (_extract_request_id msg = Ok None ∨
   ∃ rid, _extract_request_id msg = Ok (Some rid) ∧ _pending ch !! rid = None) →
  send msg ch = Ok ch ∧
  ∀ tr, run (Send msg :: tr) ch = run tr ch.
Proof.
  intros H.
  assert (send msg ch = Ok ch) as Hs.
  { unfold send. destruct H as [->|(rid & -> & Hrid)]; simpl; [done|].
    rewrite Hrid. by destruct (String.eqb rid ""). }
  split; [done|]. intros tr. simpl. by rewrite Hs.
Qed.

Lemma send_unroutable_dropped_witness :
  send other_channel_msg (run [Post (Ok hello_body) "r1"] new_channel)
    = Ok (run [Post (Ok hello_body) "r1"] new_channel).
Proof.
  refine (proj1 (send_unroutable_dropped other_channel_msg _ _)).
  left. vm_compute. reflexivity.
Defined.

(** ** What one step can do *)

Lemma handle_post_cases json rid tid ch :
  (∃ res, handle_post json rid tid ch = (ch, HDone None [] res)) ∨
  (∃ md, handle_post json rid tid ch = (register rid tid ch, HPrepare rid md)).
Proof.
  unfold handle_post.
  destruct (_parse_request_body json) as [[body|resp]|e]; [|eauto..].
  destruct (_ || _); [eauto|].
  destruct (merge_request_id _ _); eauto.
Qed.

Lemma resume_cases tid r h ch :
  ∃ ch' h', resume tid r h ch = (ch', h') ∧
    tasks ch' = tasks ch ∧
    request_id_of h' = request_id_of h ∧
    ((_pending ch' = _pending ch ∧ finished h' = finished h) ∨
     (∃ rid, request_id_of h = Some rid ∧ finished h = false ∧
             finished h' = true ∧
             _pending ch' = delete rid (_pending ch))).
Proof.
  assert (∀ rid out e (c : channel),
    request_id_of h = Some rid → finished h = false →
    ∃ ch' h', propagate rid out e c = (ch', h') ∧
      tasks ch' = tasks c ∧ request_id_of h' = request_id_of h ∧
      ((_pending ch' = _pending c ∧ finished h' = finished h) ∨
       (∃ rid, request_id_of h = Some rid ∧ finished h = false ∧
               finished h' = true ∧
               _pending ch' = delete rid (_pending c)))) as Hprop.
  { intros rid out e c Hrid Hf. do 2 eexists. split; [done|].
    simpl. split_and!; [done..|]. right. eauto. }
  assert (∀ h', request_id_of h' = request_id_of h →
    finished h' = finished h →
    ∃ ch' h'', (ch, h') = (ch', h'') ∧
      tasks ch' = tasks ch ∧ request_id_of h'' = request_id_of h ∧
      ((_pending ch' = _pending ch ∧ finished h'' = finished h) ∨
       (∃ rid, request_id_of h = Some rid ∧ finished h = false ∧
               finished h'' = true ∧
               _pending ch' = delete rid (_pending ch)))) as Hstay.
  { intros h' ? ?. do 2 eexists. split; [done|]. split_and!; [done..|].
    by left. }
  destruct h as [rid md|rid md|rid out|rid out ev k|orid out res]; simpl.
  - destruct r; [by apply Hstay|by apply Hprop].
  - destruct r as [|e]; [by apply Hstay|].
    destruct (is_Exception e); [by apply Hstay|by apply Hprop].
  - destruct r as [|e].
    + destruct (queue_items tid ch) as [|m rest]; [by apply Hstay|].
      destruct (is_progress m).
      * do 2 eexists. split; [done|]. split_and!; [done..|]. by left.
      * by apply (Hprop rid out e (set_queues _ ch)).
    + destruct e; first [by apply Hstay|by apply Hprop].
  - destruct r; [destruct k|].
    + do 2 eexists. split; [done|]. simpl. split_and!; [done..|].
      right. eauto.
    + by apply Hstay.
    + by apply Hprop.
  - by apply Hstay.
Qed.

Lemma resume_finished tid r h ch :
  finished h = true → resume tid r h ch = (ch, h).
Proof. by destruct h. Qed.

Lemma send_cases msg ch :
  send msg ch = Ok ch ∨
  ∃ rid q, _extract_request_id msg = Ok (Some rid) ∧
           _pending ch !! rid = Some q ∧ send msg ch = Ok (queue_put q msg ch).
Proof.
  unfold send. destruct (extract_request_id_total msg) as (r & -> & _).
  simpl. destruct r as [rid|]; [|by left].
  destruct (String.eqb rid ""); [by left|].
  destruct (_pending ch !! rid) eqn:E; [|by left]. right. eauto.
Qed.

Lemma step_send_frame msg ch :
  _pending (step (Send msg) ch) = _pending ch ∧
  tasks (step (Send msg) ch) = tasks ch.
Proof.
  simpl. destruct (send_cases msg ch) as [->|(rid & q & _ & _ & ->)]; done.
Qed.

(** A handler that has returned stays as it is. *)
Lemma step_finished_stable ev ch tid h :
  tasks ch !! tid = Some h → finished h = true →
  tasks (step ev ch) !! tid = Some h.
Proof.
  intros Ht Hf. destruct ev as [json rid|t r|msg|].
  - simpl.
    destruct (handle_post_cases json rid (length (tasks ch)) ch)
      as [(res & ->)|(md & ->)]; simpl;
      by rewrite lookup_app_l by (by eapply lookup_lt_Some).
  - simpl. destruct (tasks ch !! t) as [h0|] eqn:E; [|done].
    destruct (resume_cases t r h0 ch) as (ch' & h' & Hr & Hts & _).
    rewrite Hr. simpl. rewrite Hts.
    destruct (decide (t = tid)) as [->|Hne].
    + assert (h0 = h) as -> by congruence.
      rewrite resume_finished in Hr by done.
      injection Hr as <- <-.
      by rewrite list_insert_id.
    + by rewrite list_lookup_insert_ne.
  - by rewrite (proj2 (step_send_frame msg ch)).
  - done.
Qed.

Lemma run_finished_stable tr ch tid h :
  tasks ch !! tid = Some h → finished h = true →
  tasks (run tr ch) !! tid = Some h.
Proof.
  revert ch. induction tr as [|ev tr IH]; intros ch Ht Hf; [done|].
  simpl. apply IH; [|done]. by apply step_finished_stable.
Qed.

(** ** Validation *)

Lemma handle_post_missing body rid tid ch :
  missing_field body →
  handle_post (Ok (PDict body)) rid tid ch
    = (ch, HDone None [] missing_fields_response).
Proof.
  intros H. unfold handle_post. simpl. unfold dict_get, py_or.
  destruct H as [[-> ->]|[[-> ->]| ->]]; simpl; [done| |].
  - by rewrite orb_true_r.
  - by rewrite orb_true_r.
Qed.

(** C4. A request body that lacks the sender identifier, the conversation
    identifier or the content is answered with status 400 and the body
    [{"error": "Missing sender_id/chat_id/content"}]; the handler has
    returned at once: nothing was written to a stream, the registry and the
    queues are untouched, and nothing that happens later changes that
    handler's result or gives it a correlation id. *)
Theorem missing_field_rejected (body : pydict) (rid : string) (ch : channel) :
  missing_field body →
  let ch' := step (Post (Ok (PDict body)) rid) ch in
  tasks ch' = tasks ch ++ [HDone None [] missing_fields_response] ∧
  _pending ch' = _pending ch ∧
  queues ch' = queues ch ∧
  ∀ tr, tasks (run tr ch') !! length (tasks ch)
          = Some (HDone None [] missing_fields_response).
Proof.
  intros H ch'. subst ch'. simpl. rewrite handle_post_missing by done.
  simpl. split_and!; [done..|].
  intros tr. apply run_finished_stable; [|done].
  simpl. by rewrite lookup_app_r, Nat.sub_diag.
Qed.

Lemma missing_field_rejected_witness :
  tasks (step (Post (Ok (PDict no_content_body)) "r1") new_channel)
    = [HDone None [] missing_fields_response]
  ∧ _pending (step (Post (Ok (PDict no_content_body)) "r1") new_channel) = ∅.
Proof.
  refine (let H := missing_field_rejected no_content_body "r1" new_channel _
          in conj (proj1 H) (proj1 (proj2 H))).
  right. right. vm_compute. reflexivity.
Defined.

(** ** Registration *)

(** C7, as stated, fails: a second request that is handed an id already in
    the registry is not failed; it is registered, and the id now leads to
    the second request's queue instead of the first one's. *)
Lemma duplicate_id_replaces_entry :
  let ch1 := run [Post (Ok hello_body) "dup"] new_channel in
  let ch2 := step (Post (Ok hello_body) "dup") ch1 in
  _pending ch1 !! "dup" = Some 0 ∧
  _pending ch2 !! "dup" = Some 1 ∧
  (finished <$> tasks ch2 !! 1) = Some false.
Proof. vm_compute. split_and!; reflexivity. Qed.

(** C7, amended. Registration stores the new queue under the minted id
    without looking at what the registry holds: whenever a request passes
    validation, the id leads to the request's own, empty queue afterwards,
    whether or not it was present before, and every other id keeps its
    entry.  Nothing checks for a duplicate; a request is failed before
    registration only. *)
Theorem register_unconditional json rid tid ch ch' h :
  handle_post json rid tid ch = (ch', h) →
  finished h = false →
  _pending ch' = <[rid := tid]> (_pending ch) ∧
  queue_items tid ch' = [] ∧
  request_id_of h = Some rid.
Proof.
  intros Hp Hf.
  destruct (handle_post_cases json rid tid ch) as [(res & E)|(md & E)];
    rewrite E in Hp; injection Hp as <- <-; [done|].
  split_and!; [done| |done].
  unfold queue_items, register. simpl. by rewrite lookup_insert_eq.
Qed.

Lemma register_unconditional_witness :
  _pending (fst (handle_post (Ok hello_body) "dup" 1
                   (run [Post (Ok hello_body) "dup"] new_channel)))
    = <["dup" := 1]> (_pending (run [Post (Ok hello_body) "dup"] new_channel)).
Proof.
  refine (proj1 (register_unconditional (Ok hello_body) "dup" 1
                   (run [Post (Ok hello_body) "dup"] new_channel) _ _ _ _)).
  - apply surjective_pairing.
  - vm_compute. reflexivity.
Defined.

(** ** Merging the correlation id into the caller's metadata *)

(** C8, as stated, fails: the caller's own [http_relay.request_id] is
    replaced by the minted id, so the value the caller supplied under
    ["http_relay"] does not survive. *)
Lemma caller_relay_id_overwritten :
  ∃ md relay,
    tasks (step (Post (Ok (relay_body (PDict caller_relay_metadata))) "minted")
                new_channel) !! 0 = Some (HPrepare "minted" md) ∧
    md !! "http_relay" = Some (PDict relay) ∧
    relay !! "request_id" = Some (PStr "minted") ∧
    md !! "http_relay" ≠ caller_relay_metadata !! "http_relay".
Proof.
  eexists _, _. split_and!.
  - vm_compute. reflexivity.
  - vm_compute. reflexivity.
  - vm_compute. reflexivity.
  - intros H.
    apply (f_equal (λ o, match o with
                         | Some (PDict d) => d !! "request_id"
                         | _ => None
                         end)) in H.
    vm_compute in H. discriminate H.
Qed.

(** C8, amended. When the merge succeeds, every caller-supplied top-level
    key other than ["http_relay"] keeps its value; under ["http_relay"] the
    result holds a mapping whose ["request_id"] is the minted id and whose
    other keys are those of the caller's [http_relay] mapping, unchanged
    (none, if the caller supplied no such entry). *)
Theorem merge_preserves_caller_metadata (md md' : pydict) (rid : string) :
  merge_request_id (PDict md) rid = Ok md' →
  (∀ k, k ≠ "http_relay" → md' !! k = md !! k) ∧
  ∃ relay,
    md' !! "http_relay" = Some (PDict relay) ∧
    relay !! "request_id" = Some (PStr rid) ∧
    ∀ k, k ≠ "request_id" →
         relay !! k = match md !! "http_relay" with
                      | Some (PDict inner) => inner !! k
                      | _ => None
                      end.
Proof.
  unfold merge_request_id, setdefault, dict_get. simpl.
  destruct (md !! "http_relay") as [v|] eqn:E.
  - rewrite E. destruct v; simpl; try done. intros [= <-]. split.
    + intros k Hk. by rewrite lookup_insert_ne.
    + eexists. split; [by rewrite lookup_insert_eq|].
      split; [by rewrite lookup_insert_eq|].
      intros k Hk. by rewrite lookup_insert_ne.
  - rewrite lookup_insert_eq. simpl. intros [= <-]. split.
    + intros k Hk. by rewrite !lookup_insert_ne.
    + eexists. split; [by rewrite lookup_insert_eq|].
      split; [by rewrite lookup_insert_eq|].
      intros k Hk. by rewrite lookup_insert_ne.
Qed.

Lemma merge_preserves_caller_metadata_witness :
  ∃ md', merge_request_id (PDict caller_metadata) "minted" = Ok md' ∧
         md' !! "trace" = Some (PStr "t-1").
Proof.
  eexists. split; [vm_compute; reflexivity|].
  refine (eq_trans
    (proj1 (merge_preserves_caller_metadata caller_metadata _ "minted" _)
           "trace" _) _).
  - vm_compute. reflexivity.
  - discriminate.
  - vm_compute. reflexivity.
Defined.

(** ** The registry entry of a request *)

Lemma run_app tr1 tr2 ch : run (tr1 ++ tr2) ch = run tr2 (run tr1 ch).
Proof. apply foldl_app. Qed.

Lemma minted_app tr1 tr2 : minted (tr1 ++ tr2) = minted tr1 ++ minted tr2.
Proof. apply omap_app. Qed.

(** Every handler keeps the request id it started with. *)
Lemma step_request_id_stable ev ch tid h :
  tasks ch !! tid = Some h →
  ∃ h', tasks (step ev ch) !! tid = Some h' ∧
        request_id_of h' = request_id_of h.
Proof.
  intros Ht. destruct ev as [json rid|t r|msg|].
  - exists h. split; [|done]. simpl.
    destruct (handle_post_cases json rid (length (tasks ch)) ch)
      as [(res & ->)|(md & ->)]; simpl;
      by rewrite lookup_app_l by (by eapply lookup_lt_Some).
  - simpl. destruct (tasks ch !! t) as [h0|] eqn:E; [|eauto].
    destruct (resume_cases t r h0 ch) as (ch' & h' & Hr & Hts & Hid & _).
    rewrite Hr. simpl. rewrite Hts.
    destruct (decide (t = tid)) as [->|Hne].
    + assert (h0 = h) as -> by congruence. exists h'. split; [|done].
      apply list_lookup_insert_eq. by eapply lookup_lt_Some.
    + exists h. by rewrite list_lookup_insert_ne.
  - exists h. by rewrite (proj2 (step_send_frame msg ch)).
  - by exists h.
Qed.

Lemma step_ids_minted ids ev ch :
  ids_minted ids ch → ids_minted (ids ++ minted [ev]) (step ev ch).
Proof.
  intros Hids tid h r Ht Hr. apply elem_of_app.
  destruct (tasks ch !! tid) as [h0|] eqn:E.
  - left. destruct (step_request_id_stable ev ch tid h0 E) as (h' & Ht' & Hid).
    assert (h' = h) as -> by congruence.
    eapply Hids; [done|congruence].
  - right. destruct ev as [json rid|t r0|msg|].
    + simpl in Ht.
      destruct (handle_post_cases json rid (length (tasks ch)) ch)
        as [(res & E')|(md & E')]; rewrite E' in Ht; simpl in Ht;
        apply lookup_ge_None in E;
        rewrite lookup_app_r in Ht by done;
        destruct (tid - length (tasks ch)) as [|n]; simpl in Ht; try done;
        injection Ht as <-; simpl in Hr; [done|].
      injection Hr as <-. simpl. set_solver.
    + simpl in Ht. destruct (tasks ch !! t) as [h0|] eqn:E0.
      * destruct (resume_cases t r0 h0 ch) as (ch' & h' & Hres & Hts & _).
        rewrite Hres in Ht. simpl in Ht. rewrite Hts in Ht.
        destruct (decide (t = tid)) as [->|Hne]; [congruence|].
        rewrite list_lookup_insert_ne in Ht by done. congruence.
      * congruence.
    + rewrite (proj2 (step_send_frame msg ch)) in Ht. congruence.
    + simpl in Ht. congruence.
Qed.

Lemma run_ids_minted tr ids ch :
  ids_minted ids ch → ids_minted (ids ++ minted tr) (run tr ch).
Proof.
  revert ids ch. induction tr as [|ev tr IH]; intros ids ch H.
  - by rewrite app_nil_r.
  - change (minted (ev :: tr)) with (minted ([ev] ++ tr)).
    rewrite minted_app, app_assoc.
    change (run (ev :: tr) ch) with (run tr (step ev ch)).
    apply IH. by apply step_ids_minted.
Qed.

Lemma step_entry_inv b tid rid ev ch :
  entry_inv b tid rid ch →
  minted_by ev ≠ Some rid →
  entry_inv (b || is_stop ev) tid rid (step ev ch).
Proof.
  intros (Hoth & h & Ht & Hid & Hentry) Hmint. unfold entry_inv.
  destruct ev as [json rid'|t r|msg|].
  - (* another POST *)
    assert (rid' ≠ rid) as Hne by (simpl in Hmint; congruence).
    pose proof (lookup_lt_Some _ _ _ Ht) as Hlt.
    rewrite orb_false_r. simpl.
    destruct (handle_post_cases json rid' (length (tasks ch)) ch)
      as [(res & ->)|(md & ->)]; simpl; (split; [|exists h]).
    + intros tid' h' Ht' Hne'. simpl in Ht'.
      destruct (decide (tid' < length (tasks ch))) as [Hl|Hl].
      * rewrite lookup_app_l in Ht' by done. by eapply Hoth.
      * rewrite lookup_app_r in Ht' by lia.
        destruct (tid' - length (tasks ch)); simpl in Ht'; [|done].
        by injection Ht' as <-.
    + simpl. by rewrite lookup_app_l.
    + intros tid' h' Ht' Hne'. simpl in Ht'.
      destruct (decide (tid' < length (tasks ch))) as [Hl|Hl].
      * rewrite lookup_app_l in Ht' by done. by eapply Hoth.
      * rewrite lookup_app_r in Ht' by lia.
        destruct (tid' - length (tasks ch)); simpl in Ht'; [|done].
        injection Ht' as <-. simpl. congruence.
    + simpl. rewrite lookup_app_l by done. split_and!; [done..|].
      by rewrite lookup_insert_ne.
  - (* a handler is resumed *)
    rewrite orb_false_r. simpl.
    destruct (tasks ch !! t) as [h0|] eqn:E; [|by split; [|exists h]].
    destruct (resume_cases t r h0 ch) as (ch' & h' & Hr & Hts & Hid' & Hp).
    rewrite Hr. simpl. rewrite Hts.
    destruct (decide (t = tid)) as [->|Hne].
    + assert (h0 = h) as -> by congruence.
      pose proof (lookup_lt_Some _ _ _ Ht) as Hlt. split.
      * intros tid' h'' Ht' Hne'.
        rewrite list_lookup_insert_ne in Ht' by done. by eapply Hoth.
      * exists h'. rewrite list_lookup_insert_eq by done.
        split_and!; [done|congruence|].
        destruct Hp as [[-> ->]|(rid0 & Hrid0 & Hf & -> & ->)]; [done|].
        assert (rid0 = rid) as -> by congruence.
        by rewrite lookup_delete_eq.
    + split.
      * intros tid' h'' Ht' Hne'.
        destruct (decide (tid' = t)) as [->|Hne''].
        -- rewrite list_lookup_insert_eq in Ht'
             by (by eapply lookup_lt_Some).
           injection Ht' as <-. rewrite Hid'. by eapply Hoth.
        -- rewrite list_lookup_insert_ne in Ht' by done. by eapply Hoth.
      * exists h. rewrite list_lookup_insert_ne by done.
        split_and!; [done..|].
        destruct Hp as [[-> _]|(rid0 & Hrid0 & _ & _ & ->)]; [done|].
        assert (rid0 ≠ rid) as Hne0.
        { intros ->. by eapply (Hoth t h0). }
        by rewrite lookup_delete_ne.
  - (* the dispatcher *)
    rewrite orb_false_r.
    destruct (step_send_frame msg ch) as [Hp Hts].
    split; [|exists h]; rewrite ?Hts, ?Hp; done.
  - (* stop *)
    rewrite orb_true_r. split; [done|]. exists h. simpl.
    split_and!; [done..|]. destruct (finished h); done.
Qed.

Lemma run_entry_inv tr b tid rid ch :
  entry_inv b tid rid ch →
  rid ∉ minted tr →
  entry_inv (b || existsb is_stop tr) tid rid (run tr ch).
Proof.
  revert b ch. induction tr as [|ev tr IH]; intros b ch Hinv Hm.
  - by rewrite orb_false_r.
  - simpl. rewrite orb_assoc. apply IH.
    + apply step_entry_inv; [done|].
      intros E. apply Hm. unfold minted. simpl. rewrite E. set_solver.
    + intros Hin. apply Hm. unfold minted. simpl.
      destruct (minted_by ev); set_solver.
Qed.

Lemma new_channel_ids_minted : ids_minted [] new_channel.
Proof. intros tid h r Ht. by destruct tid. Qed.

(** C1, as stated, fails: [stop] clears the registry while a handler is
    still suspended in its delivery loop with the stream open, so the open
    stream's correlation id has no entry. *)
Lemma stop_clears_entry_of_open_stream :
  let ch := run [Post (Ok hello_body) "r1"; Resume 0 Returns;
                 Resume 0 Returns; Stop] new_channel in
  tasks ch !! 0 = Some (HAwait "r1" []) ∧
  (stream_open <$> tasks ch !! 0) = Some true ∧
  _pending ch !! "r1" = None.
Proof. vm_compute. split_and!; reflexivity. Qed.

(** C1, amended. Take any run of the channel in which every POST is handed
    a fresh id, and any request in it that passed validation, with id
    [rid] and handler [tid].  From its registration until its handler is
    left (so in particular while its stream is open) the registry maps
    [rid] to that handler's own queue, provided [stop] has not run since
    the request arrived; once the handler is left, by return or by an
    exception, on whatever path, the registry has no entry for [rid], with
    or without a [stop]. *)
Theorem registry_entry_lifetime tr1 json rid tr2 h :
  let tr := tr1 ++ Post json rid :: tr2 in
  let ch := run tr new_channel in
  let tid := length (tasks (run tr1 new_channel)) in
  NoDup (minted tr) →
  tasks ch !! tid = Some h →
  request_id_of h = Some rid →
  if finished h then _pending ch !! rid = None
  else existsb is_stop tr2 = false → _pending ch !! rid = Some tid.
Proof.
  intros tr ch tid Hnd Ht Hid. subst tr ch tid.
  rewrite run_app in Ht |- *. simpl in Ht |- *.
  set (ch1 := run tr1 new_channel) in *.
  rewrite minted_app in Hnd. simpl in Hnd.
  apply NoDup_app in Hnd as (_ & Hfresh & Hnd).
  apply NoDup_cons in Hnd as [Hnotin _].
  assert (rid ∉ minted tr1) as Hnotin1.
  { intros Hin. apply (Hfresh _ Hin). set_solver. }
  pose proof (run_ids_minted tr1 [] new_channel new_channel_ids_minted)
    as Hids.
  fold ch1 in Hids. simpl in Hids.
  destruct (handle_post_cases json rid (length (tasks ch1)) ch1)
    as [(res & E)|(md & E)]; rewrite E in Ht |- *;
    cbv beta iota zeta in Ht |- *.
  - (* rejected before registration: the handler never holds an id *)
    rewrite (run_finished_stable tr2 _ _ (HDone None [] res)) in Ht.
    + injection Ht as <-. done.
    + simpl. by rewrite lookup_app_r, Nat.sub_diag.
    + done.
  - assert (entry_inv false (length (tasks ch1)) rid
              (set_tasks (λ ts, ts ++ [HPrepare rid md])
                         (register rid (length (tasks ch1)) ch1))) as Hinv.
    { split.
      - intros tid' h' Ht' Hne. simpl in Ht'.
        destruct (decide (tid' < length (tasks ch1))) as [Hl|Hl].
        + rewrite lookup_app_l in Ht' by done.
          intros Hr. apply Hnotin1. by eapply Hids.
        + rewrite lookup_app_r in Ht' by lia.
          destruct (tid' - length (tasks ch1)) eqn:Hd; [lia|done].
      - exists (HPrepare rid md). simpl. split_and!; [|done|].
        + by rewrite lookup_app_r, Nat.sub_diag.
        + intros _. by rewrite lookup_insert_eq. }
    apply (run_entry_inv tr2) in Hinv; [|done].
    destruct Hinv as (_ & h' & Ht' & _ & Hentry).
    assert (h' = h) as -> by congruence.
    done.
Qed.

Lemma registry_entry_lifetime_witness :
  _pending (run [Post (Ok hello_body) "r1"; Resume 0 Returns;
                 Resume 0 Returns] new_channel) !! "r1" = Some 0.
Proof.
  refine (registry_entry_lifetime [] (Ok hello_body) "r1"
            [Resume 0 Returns; Resume 0 Returns] (HAwait "r1" []) _ _ _ _).
  - apply (bool_decide_unpack _). vm_compute. reflexivity.
  - vm_compute. reflexivity.
  - reflexivity.
  - reflexivity.
Defined.

(** ** The delivery loop *)

Lemma is_progress_well_shaped (msg : OutboundMessage) :
  progress_well_shaped msg = true → is_progress msg = Ok (flag_set msg).
Proof.
  unfold progress_well_shaped, is_progress, flag_set, progress_flag.
  rewrite metadata_or_empty_dict.
  destruct (metadata msg) as [md|]; simpl; [|done].
  unfold dict_get. destruct (md !! "progress") as [v|]; simpl; [|done].
  destruct v; try done. intros _. simpl. unfold dict_get.
  by destruct (d !! "is_progress").
Qed.

Lemma is_progress_ill_shaped (msg : OutboundMessage) :
  progress_well_shaped msg = false → is_progress msg = Raise AttributeError.
Proof.
  unfold progress_well_shaped, is_progress.
  rewrite metadata_or_empty_dict.
  destruct (metadata msg) as [md|]; simpl; [|done].
  unfold dict_get. destruct (md !! "progress") as [v|]; simpl; [|done].
  by destruct v.
Qed.

(** A dequeued message with the flag set: a "progress" event, and the
    handler waits on its queue again, still registered. *)
Lemma delivery_progress_continues tid rid out m rest ch :
  tasks ch !! tid = Some (HAwait rid out) →
  queue_items tid ch = m :: rest →
  progress_well_shaped m = true → flag_set m = true →
  let ch' := run [Resume tid Returns; Resume tid Returns] ch in
  tasks ch' !! tid
    = Some (HAwait rid (out ++ [{| ev_type := "progress";
                                   ev_content := content m |}])) ∧
  _pending ch' = _pending ch ∧
  queue_items tid ch' = rest.
Proof.
  intros Ht Hq Hw Hf. pose proof (lookup_lt_Some _ _ _ Ht) as Hlt.
  simpl. rewrite Ht. simpl. rewrite Hq, (is_progress_well_shaped m Hw), Hf.
  simpl. rewrite list_lookup_insert_eq by done. simpl.
  rewrite list_lookup_insert_eq by (by rewrite length_insert).
  split_and!; [done..|].
  unfold queue_items. simpl. by rewrite lookup_insert_eq.
Qed.

(** A dequeued message with the flag false or absent: a "response" event,
    then the handler returns the stream, deregistered; what is left in the
    queue is never read. *)
Lemma delivery_response_terminates tid rid out m rest ch :
  tasks ch !! tid = Some (HAwait rid out) →
  queue_items tid ch = m :: rest →
  progress_well_shaped m = true → flag_set m = false →
  let ch' := run [Resume tid Returns; Resume tid Returns] ch in
  tasks ch' !! tid
    = Some (HDone (Some rid)
              (out ++ [{| ev_type := "response"; ev_content := content m |}])
              StreamResponse) ∧
  _pending ch' = delete rid (_pending ch) ∧
  queue_items tid ch' = rest.
Proof.
  intros Ht Hq Hw Hf. pose proof (lookup_lt_Some _ _ _ Ht) as Hlt.
  simpl. rewrite Ht. simpl. rewrite Hq, (is_progress_well_shaped m Hw), Hf.
  simpl. rewrite list_lookup_insert_eq by done. simpl.
  rewrite list_lookup_insert_eq by (by rewrite length_insert).
  split_and!; [done..|].
  unfold queue_items. simpl. by rewrite lookup_insert_eq.
Qed.

(** A dequeued message whose ["progress"] entry is not a mapping: the
    handler is left by the [AttributeError], deregistered, with nothing
    written for the message. *)
Lemma delivery_ill_shaped_raises tid rid out m rest ch :
  tasks ch !! tid = Some (HAwait rid out) →
  queue_items tid ch = m :: rest →
  progress_well_shaped m = false →
  let ch' := run [Resume tid Returns; Resume tid Returns] ch in
  tasks ch' !! tid = Some (HDone (Some rid) out (Raised AttributeError)) ∧
  _pending ch' = delete rid (_pending ch).
Proof.
  intros Ht Hq Hw. pose proof (lookup_lt_Some _ _ _ Ht) as Hlt.
  simpl. rewrite Ht. simpl. rewrite Hq, (is_progress_ill_shaped m Hw).
  simpl. rewrite list_lookup_insert_eq by done. simpl.
  by rewrite list_lookup_insert_eq by (by rewrite length_insert).
Qed.

Lemma flag_set_well_shaped (m : OutboundMessage) :
  flag_set m = true → progress_well_shaped m = true.
Proof.
  unfold flag_set, progress_flag, progress_well_shaped.
  destruct (metadata m) as [md|]; simpl; [|done].
  destruct (md !! "progress") as [v|]; simpl; [|done].
  by destruct v.
Qed.

(** C2 at a message whose ["progress"] entry is not a mapping.  It carries
    no progress flag, it is routed to the request by [send], and when the
    loop dequeues it after a progress event the handler is left by an
    [AttributeError]: neither a "response" nor a "progress" event is
    written for it. *)
Theorem flagless_message_emits_nothing :
  let ch := run [Post (Ok hello_body) "r1"; Resume 0 Returns;
                 Resume 0 Returns;
                 Send (progress_msg "r1" "thinking..." true);
                 Resume 0 Returns; Resume 0 Returns;
                 Send (stray_progress_msg "r1")] new_channel in
  progress_flag (stray_progress_msg "r1") = None ∧
  tasks ch !! 0
    = Some (HAwait "r1" [{| ev_type := "progress";
                            ev_content := "thinking..." |}]) ∧
  queue_items 0 ch = [stray_progress_msg "r1"] ∧
  tasks (step (Resume 0 Returns) ch) !! 0
    = Some (HDone (Some "r1")
              [{| ev_type := "progress"; ev_content := "thinking..." |}]
              (Raised AttributeError)).
Proof. vm_compute. split_and!; reflexivity. Qed.

(** C9 at the same kind of message, as the first one delivered: the stream
    has been opened, and the handler is left by an [AttributeError] with
    nothing written to the stream, so no terminal "response" event. *)
Theorem stray_progress_no_terminal_event :
  let opened := run [Post (Ok hello_body) "r1"; Resume 0 Returns] new_channel in
  let ch := run [Resume 0 Returns; Send (stray_progress_msg "r1");
                 Resume 0 Returns] opened in
  (stream_open <$> tasks opened !! 0) = Some true ∧
  _extract_request_id (stray_progress_msg "r1") = Ok (Some "r1") ∧
  tasks ch !! 0 = Some (HDone (Some "r1") [] (Raised AttributeError)) ∧
  (written <$> tasks ch !! 0) = Some [].
Proof. vm_compute. split_and!; reflexivity. Qed.

(** ** Shape of a stream *)

Lemma resume_stream_wf tid r h ch :
  stream_wf h → stream_wf (resume tid r h ch).2.
Proof.
  destruct h as [rid md|rid md|rid out|rid out ev k|orid out res]; simpl.
  - intros _. destruct r; simpl; [done|by apply Forall_nil].
  - intros _. destruct r as [|e]; simpl; [by apply Forall_nil|].
    destruct (is_Exception e); simpl; [|by apply Forall_nil].
    split; [by apply Forall_nil|done].
  - intros Hout. destruct r as [|e].
    + destruct (queue_items tid ch) as [|m rest]; [done|].
      destruct (is_progress m) as [[]|]; simpl; done.
    + destruct e; simpl; done.
  - destruct r; [destruct k|]; simpl.
    + intros [Hout Hev]. eauto.
    + intros [Hout Hev]. apply Forall_app. split; [done|].
      by apply Forall_singleton.
    + by destruct k; intros [? _].
  - done.
Qed.

Lemma handle_post_stream_wf json rid tid ch :
  stream_wf (handle_post json rid tid ch).2.
Proof.
  unfold handle_post, _parse_request_body.
  destruct json as [v|e].
  - destruct v; simpl; try done.
    destruct (_ || _); simpl; [done|].
    destruct (merge_request_id _ _); simpl; [done|by apply Forall_nil].
  - destruct (is_Exception e); simpl; [done|by apply Forall_nil].
Qed.

Lemma step_stream_wf ev ch :
  Forall stream_wf (tasks ch) → Forall stream_wf (tasks (step ev ch)).
Proof.
  intros H. destruct ev as [json rid|t r|msg|].
  - simpl.
    pose proof (handle_post_stream_wf json rid (length (tasks ch)) ch) as Hwf.
    destruct (handle_post json rid (length (tasks ch)) ch) as [ch' h] eqn:E.
    destruct (handle_post_cases json rid (length (tasks ch)) ch)
      as [(res & E')|(md & E')]; rewrite E' in E; injection E as <- <-;
      simpl; (apply Forall_app; split; [done|]); by apply Forall_singleton.
  - simpl. destruct (tasks ch !! t) as [h|] eqn:E; [|done].
    pose proof (resume_stream_wf t r h ch) as Hwf.
    destruct (resume_cases t r h ch) as (ch' & h' & Hr & Hts & _).
    rewrite Hr in Hwf |- *. simpl in Hwf |- *. rewrite Hts.
    apply Forall_insert; [done|]. apply Hwf.
    by eapply (Forall_lookup_1 _ _ _ _ H).
  - by rewrite (proj2 (step_send_frame msg ch)).
  - done.
Qed.

Lemma run_stream_wf tr ch :
  Forall stream_wf (tasks ch) → Forall stream_wf (tasks (run tr ch)).
Proof.
  revert ch. induction tr as [|ev tr IH]; intros ch Hch; [done|].
  simpl. apply IH. by apply step_stream_wf.
Qed.

(** X16. In every run, a handler that returned the stream wrote "progress"
    events and then exactly one "response" event, the last. *)
Lemma returned_stream_shape tr tid orid out :
  tasks (run tr new_channel) !! tid = Some (HDone orid out StreamResponse) →
  ∃ out' ev, out = out' ++ [ev] ∧ all_progress out' ∧
             ev_type ev = "response".
Proof.
  intros Ht.
  assert (Forall stream_wf (tasks (run tr new_channel))) as Hall.
  { apply run_stream_wf. apply Forall_nil_2. }
  apply (Forall_lookup_1 _ _ _ _ Hall Ht).
Qed.

(** ** Timeout *)

Example timed_run :
  (deliver 0 0 timed_arrivals waiting_r1).2 = Some 2505 ∧
  tasks (deliver 0 0 timed_arrivals waiting_r1).1 !! 0
    = Some (HDone (Some "r1")
              [ {| ev_type := "progress"; ev_content := "step 1" |};
                {| ev_type := "progress"; ev_content := "step 2" |};
                {| ev_type := "response";
                   ev_content := "Upstream response timed out." |} ]
              StreamResponse).
Proof. vm_compute. split; reflexivity. Qed.

Lemma send_addressed rid q m ch :
  addressed rid m → _pending ch !! rid = Some q →
  step (Send m) ch = queue_put q m ch.
Proof.
  intros Ha Hp. simpl. unfold send. rewrite Ha. simpl.
  destruct (extract_request_id_total m) as (r & E & Hr).
  rewrite Ha in E. injection E as <-.
  destruct Hr as [|(s & [= <-] & Hs)]; [done|].
  destruct (String.eqb_spec rid ""); [done|]. by rewrite Hp.
Qed.

Lemma send_set_tasks f m ch :
  step (Send m) (set_tasks f ch) = set_tasks f (step (Send m) ch).
Proof.
  cbn [step]. unfold send.
  destruct (_extract_request_id m) as [[r|]|e]; simpl; try done.
  destruct (String.eqb r ""); [done|].
  by destruct (_pending ch !! r).
Qed.

(** Playing a send after the return of a write, instead of before it,
    gives the same channel when the loop goes on. *)
Lemma send_after_write_return tid rid out ev m ch :
  tasks ch !! tid = Some (HWrite rid out ev ThenLoop) →
  step (Send m) (step (Resume tid Returns) ch)
    = step (Resume tid Returns) (step (Send m) ch).
Proof.
  intros Ht.
  assert (step (Resume tid Returns) ch
          = set_tasks (<[tid:=HAwait rid (out ++ [ev])]>) ch) as ->.
  { cbn [step]. by rewrite Ht. }
  rewrite send_set_tasks.
  pose proof (proj2 (step_send_frame m ch)) as Hts.
  set (c := step (Send m) ch) in *.
  cbn [step]. by rewrite Hts, Ht.
Qed.

Lemma expire_returns tid rid out ch :
  tasks ch !! tid = Some (HAwait rid out) →
  let ch' := run [Resume tid (Raises TimeoutError); Resume tid Returns] ch in
  tasks ch' !! tid
    = Some (HDone (Some rid) (out ++ [timeout_notice]) StreamResponse) ∧
  _pending ch' = delete rid (_pending ch).
Proof.
  intros Ht. pose proof (lookup_lt_Some _ _ _ Ht) as Hlt.
  simpl. rewrite Ht. simpl. rewrite list_lookup_insert_eq by done. simpl.
  by rewrite list_lookup_insert_eq by (by rewrite length_insert).
Qed.

Lemma deliver_nil tid rid out now ch :
  tasks ch !! tid = Some (HAwait rid out) →
  deliver tid now [] ch
    = (run [Resume tid (Raises TimeoutError); Resume tid Returns] ch,
       Some (now + 900)).
Proof. intros Ht. unfold deliver. by rewrite Ht. Qed.

Lemma deliver_cons tid rid out now x rest ch :
  tasks ch !! tid = Some (HAwait rid out) →
  deliver tid now (x :: rest) ch
    = if sent_at x <? now + 900 then
        match queue_items tid (step (Send (msg_of x)) ch) with
        | [] => deliver tid now rest (step (Send (msg_of x)) ch)
        | _ :: _ =>
            deliver tid (Nat.max now (sent_at x) + write_takes x) rest
              (run [Resume tid Returns; Resume tid Returns]
                   (step (Send (msg_of x)) ch))
        end
      else (run [Resume tid (Raises TimeoutError); Resume tid Returns] ch,
            Some (now + 900)).
Proof. intros Ht. cbn [deliver]. by rewrite Ht. Qed.

Lemma deliver_finished tid h now arrivals ch :
  tasks ch !! tid = Some h → finished h = true →
  deliver tid now arrivals ch = (ch, None).
Proof.
  intros Ht Hf. destruct h; try done.
  destruct arrivals; cbn [deliver]; by rewrite Ht.
Qed.

Lemma wait_begins_0 start arrivals : wait_begins start arrivals 0 = start.
Proof. by destruct arrivals. Qed.

Lemma reaches_wait_0 start arrivals : reaches_wait start arrivals 0.
Proof. split; [lia|intros; lia]. Qed.

Lemma reaches_wait_cons_S start x rest k :
  reaches_wait start (x :: rest) (S k) ↔
  sent_at x < start + 900 ∧ flag_set (msg_of x) = true ∧
  reaches_wait (Nat.max start (sent_at x) + write_takes x) rest k.
Proof.
  unfold reaches_wait. split.
  - intros (Hk & Hpre). split_and!.
    + by apply (Hpre 0 x); [lia|].
    + by apply (Hpre 0 x); [lia|].
    + simpl in Hk. lia.
    + intros i y Hi Hl. apply (Hpre (S i) y); [lia|done].
  - intros (Ha & Hm & Hk & Hpre). split.
    + simpl. lia.
    + intros [|i] y Hi Hl.
      * injection Hl as <-. by rewrite wait_begins_0.
      * apply (Hpre i y); [lia|done].
Qed.

Lemma silent_window_cons_0 start x rest :
  silent_window start (x :: rest) 0 ↔ start + 900 ≤ sent_at x.
Proof.
  unfold silent_window. split.
  - intros (_ & H). by apply (H x).
  - intros H. split; [apply reaches_wait_0|]. by intros y [= <-].
Qed.

Lemma silent_window_cons_S start x rest k :
  silent_window start (x :: rest) (S k) ↔
  sent_at x < start + 900 ∧ flag_set (msg_of x) = true ∧
  silent_window (Nat.max start (sent_at x) + write_takes x) rest k.
Proof.
  unfold silent_window. rewrite reaches_wait_cons_S. simpl. tauto.
Qed.

(** What a timed run of the loop comes to: either the timeout never fires
    and there is no silent window, or it fires at the end of the silent
    window, after the progress events of the messages before it. *)
Lemma deliver_spec arrivals : ∀ tid rid out start ch,
  tasks ch !! tid = Some (HAwait rid out) →
  _pending ch !! rid = Some tid →
  queue_items tid ch = [] →
  Forall (λ x, addressed rid (msg_of x)) arrivals →
  ((deliver tid start arrivals ch).2 = None ∧
   ∀ k, ¬ silent_window start arrivals k) ∨
  (∃ k, silent_window start arrivals k ∧
        (deliver tid start arrivals ch).2
          = Some (wait_begins start arrivals k + 900) ∧
        tasks (deliver tid start arrivals ch).1 !! tid
          = Some (HDone (Some rid)
                    (out ++ progress_events (take k arrivals)
                         ++ [timeout_notice])
                    StreamResponse) ∧
        _pending (deliver tid start arrivals ch).1 !! rid = None).
Proof.
  induction arrivals as [|x rest IH];
    intros tid rid out start ch Ht Hp Hq Hall.
  - right. exists 0. rewrite (deliver_nil tid rid out) by done.
    destruct (expire_returns tid rid out ch Ht) as [Ht' Hp'].
    split_and!.
    + split; [apply reaches_wait_0|by intros y [=]].
    + done.
    + done.
    + cbn [fst]. rewrite Hp'. apply lookup_delete_eq.
  - rewrite (deliver_cons tid rid out) by done.
    apply Forall_cons in Hall as [Haddr Hall]. simpl in Haddr.
    destruct (Nat.ltb_spec (sent_at x) (start + 900)) as [Hlt|Hge].
    + rewrite (send_addressed rid tid) by done.
      set (m := msg_of x) in *.
      assert (queue_items tid (queue_put tid m ch) = [m]) as Hq1.
      { unfold queue_items at 1, queue_put. simpl.
        by rewrite lookup_insert_eq, Hq. }
      rewrite Hq1.
      destruct (progress_well_shaped m) eqn:Hshape; cycle 1.
      { destruct (delivery_ill_shaped_raises tid rid out m []
                    (queue_put tid m ch) Ht Hq1 Hshape) as (Ht2 & _).
        rewrite (deliver_finished tid _ _ rest _ Ht2) by done.
        left. split; [done|]. intros [|k].
        - rewrite silent_window_cons_0. lia.
        - rewrite silent_window_cons_S. intros (_ & Hf & _).
          apply flag_set_well_shaped in Hf. subst m. congruence. }
      destruct (flag_set m) eqn:Hflag.
      * destruct (delivery_progress_continues tid rid out m []
                    (queue_put tid m ch) Ht Hq1 Hshape Hflag)
          as (Ht2 & Hp2 & Hq2).
        destruct (IH tid rid _ (Nat.max start (sent_at x) + write_takes x)
                     _ Ht2 (eq_trans (f_equal (.!! rid) Hp2) Hp) Hq2 Hall)
          as [[Hnone Hno]|(k & Hk & Hfired & Hdone & Hgone)].
        -- left. split; [done|]. intros [|k].
           ++ rewrite silent_window_cons_0. lia.
           ++ rewrite silent_window_cons_S. intros (_ & _ & ?).
              by eapply Hno.
        -- right. exists (S k). split_and!.
           ++ by apply silent_window_cons_S.
           ++ done.
           ++ rewrite Hdone. do 2 f_equal.
              by rewrite <- app_assoc.
           ++ done.
      * destruct (delivery_response_terminates tid rid out m []
                    (queue_put tid m ch) Ht Hq1 Hshape Hflag)
          as (Ht2 & _ & _).
        rewrite (deliver_finished tid _ _ rest _ Ht2) by done.
        left. split; [done|]. intros [|k].
        -- rewrite silent_window_cons_0. lia.
        -- rewrite silent_window_cons_S. intros (_ & ? & _).
           subst m. congruence.
    + right. exists 0.
      destruct (expire_returns tid rid out ch Ht) as [Ht' Hp'].
      split_and!.
      * by apply silent_window_cons_0.
      * done.
      * done.
      * cbn [fst]. rewrite Hp'. apply lookup_delete_eq.
Qed.

(** C3, as stated, fails: the 900 seconds do not run from the last dequeue.
    A progress message is dequeued at time 0 and the write of its event
    takes ten seconds, so the loop calls [wait_for] again at time 10; the
    answer comes at time 905, when no message has been dequeued for more
    than 900 seconds since the last dequeue, yet it is still in time for
    the wait that began at 10: the timeout does not fire, and the stream
    ends with the answer. *)
Lemma no_timeout_900s_after_dequeue :
  silent_since_dequeue 0 slow_write_arrivals 1 ∧
  last_dequeue 0 slow_write_arrivals 1 = 0 ∧
  wait_begins 0 slow_write_arrivals 1 = 10 ∧
  (deliver 0 0 slow_write_arrivals waiting_r1).2 = None ∧
  tasks (deliver 0 0 slow_write_arrivals waiting_r1).1 !! 0
    = Some (HDone (Some "r1")
              [ {| ev_type := "progress"; ev_content := "step 1" |};
                {| ev_type := "response"; ev_content := "done" |} ]
              StreamResponse).
Proof.
  split_and!; [|vm_compute; reflexivity..].
  split.
  - split; [simpl; lia|]. intros [|i] x Hi Hl; [|lia].
    injection Hl as <-. split; [vm_compute; lia|vm_compute; reflexivity].
  - intros x [= <-]. vm_compute. lia.
Qed.

(** C3, amended. With the handler waiting in its delivery loop from time
    [start], the registry leading to its queue, and the messages of its
    request arriving at the given times: the timeout fires if and only if
    the loop reaches a wait during which no message comes for 900 seconds,
    counted from the moment that wait began, that is from the call of
    [wait_for], made on entering the loop and again each time the write of
    a progress event has returned; so every wait has a fresh window of 900
    seconds.  A loop that has ended, by a terminal message or an exception,
    waits no more and has no timeout.  When the timeout fires, it does so
    900 seconds after that wait began; the stream then holds the progress
    events delivered before and after them exactly one "response" event,
    with the content "Upstream response timed out."; the handler has
    returned the stream and its registry entry is gone. *)
Theorem timeout_iff_silent_window tid rid out start arrivals ch :
  tasks ch !! tid = Some (HAwait rid out) →
  _pending ch !! rid = Some tid →
  queue_items tid ch = [] →
  Forall (λ x, addressed rid (msg_of x)) arrivals →
  let fired := (deliver tid start arrivals ch).2 in
  let ch' := (deliver tid start arrivals ch).1 in
  (is_Some fired ↔ ∃ k, silent_window start arrivals k) ∧
  (∀ t, fired = Some t →
        ∃ k, silent_window start arrivals k ∧
             t = wait_begins start arrivals k + 900 ∧
             tasks ch' !! tid
               = Some (HDone (Some rid)
                         (out ++ progress_events (take k arrivals)
                              ++ [{| ev_type := "response";
                                     ev_content :=
                                       "Upstream response timed out." |}])
                         StreamResponse) ∧
             _pending ch' !! rid = None).
Proof.
  intros Ht Hp Hq Hall fired ch'. subst fired ch'.
  destruct (deliver_spec arrivals tid rid out start ch Ht Hp Hq Hall)
    as [[Hnone Hno]|(k & Hk & Hfired & Hdone & Hgone)].
  - rewrite Hnone. split.
    + split; [by intros [? ?]|]. intros [k Hk]. by destruct (Hno k).
    + done.
  - rewrite Hfired. split.
    + split; eauto.
    + intros t [= <-]. eauto.
Qed.

Lemma timeout_iff_silent_window_witness :
  ∃ k, silent_window 0 timed_arrivals k ∧
       2505 = wait_begins 0 timed_arrivals k + 900 ∧
       tasks (deliver 0 0 timed_arrivals waiting_r1).1 !! 0
         = Some (HDone (Some "r1")
                   ([] ++ progress_events (take k timed_arrivals)
                       ++ [{| ev_type := "response";
                              ev_content :=
                                "Upstream response timed out." |}])
                   StreamResponse) ∧
       _pending (deliver 0 0 timed_arrivals waiting_r1).1 !! "r1" = None.
Proof.
  refine (proj2 (timeout_iff_silent_window 0 "r1" [] 0 timed_arrivals
                   waiting_r1 _ _ _ _) 2505 _).
  - vm_compute. reflexivity.
  - vm_compute. reflexivity.
  - vm_compute. reflexivity.
  - repeat (apply Forall_cons; split; [vm_compute; reflexivity|]).
    apply Forall_nil_2.
  - vm_compute. reflexivity.
Defined.

(** * Further properties of the channel *)

(** ** Who owns a registry entry *)

Lemma step_entries_live ev ch :
  entries_live ch → entries_live (step ev ch).
Proof.
  intros Hlive. destruct ev as [json rid'|t r|msg|].
  - simpl.
    destruct (handle_post_cases json rid' (length (tasks ch)) ch)
      as [(res & ->)|(md & ->)]; intros rid q Hq; simpl in Hq |- *.
    + destruct (Hlive rid q Hq) as (h & Ht & Hh).
      exists h. by rewrite lookup_app_l by (by eapply lookup_lt_Some).
    + destruct (decide (rid' = rid)) as [->|Hne].
      * rewrite lookup_insert_eq in Hq. injection Hq as <-.
        exists (HPrepare rid md).
        by rewrite lookup_app_r, Nat.sub_diag.
      * rewrite lookup_insert_ne in Hq by done.
        destruct (Hlive rid q Hq) as (h & Ht & Hh).
        exists h. by rewrite lookup_app_l by (by eapply lookup_lt_Some).
  - simpl. destruct (tasks ch !! t) as [h0|] eqn:E; [|done].
    destruct (resume_cases t r h0 ch) as (ch' & h' & Hr & Hts & Hid & Hp).
    rewrite Hr. intros rid q Hq. simpl in Hq |- *. rewrite Hts.
    assert (_pending ch !! rid = Some q ∧
            (finished h' = true → finished h0 = false →
             request_id_of h0 ≠ Some rid)) as [Hq0 Hfin].
    { destruct Hp as [[Hp Hfeq]|(rid0 & Hrid0 & _ & _ & Hp)];
        rewrite Hp in Hq.
      - split; [done|]. intros Hf' Hf. congruence.
      - apply lookup_delete_Some in Hq as [Hne Hq].
        split; [done|]. congruence. }
    destruct (Hlive rid q Hq0) as (h & Ht & Hrid & Hf).
    destruct (decide (q = t)) as [->|Hne].
    + assert (h0 = h) as -> by congruence.
      exists h'. rewrite list_lookup_insert_eq by (by eapply lookup_lt_Some).
      split_and!; [done|congruence|].
      destruct (finished h') eqn:Hf'; [|done].
      by destruct (Hfin eq_refl Hf).
    + exists h. by rewrite list_lookup_insert_ne.
  - destruct (step_send_frame msg ch) as [Hp Hts].
    intros rid q Hq. rewrite Hp in Hq. rewrite Hts. by apply Hlive.
  - intros rid q Hq. done.
Qed.

Lemma run_entries_live tr ch :
  entries_live ch → entries_live (run tr ch).
Proof.
  revert ch. induction tr as [|ev tr IH]; intros ch Hch; [done|].
  simpl. apply IH. by apply step_entries_live.
Qed.

Lemma new_channel_entries_live : entries_live new_channel.
Proof. intros rid q Hq. simpl in Hq. by rewrite lookup_empty in Hq. Qed.

(** X1. In every run of the channel, whatever ids the requests are handed,
    each entry of the registry leads to the queue of a handler that has not
    been left and that holds exactly that id: the registry never keeps the
    entry of a finished request, and no two ids share a queue. *)
Theorem registry_entries_live tr rid q :
  _pending (run tr new_channel) !! rid = Some q →
  (∃ h, tasks (run tr new_channel) !! q = Some h ∧
        request_id_of h = Some rid ∧ finished h = false) ∧
  ∀ rid', _pending (run tr new_channel) !! rid' = Some q → rid' = rid.
Proof.
  pose proof (run_entries_live tr _ new_channel_entries_live) as Hlive.
  intros Hq. split; [by apply Hlive|].
  intros rid' Hq'.
  destruct (Hlive rid q Hq) as (h & Ht & Hrid & _).
  destruct (Hlive rid' q Hq') as (h' & Ht' & Hrid' & _).
  congruence.
Qed.

Lemma registry_entries_live_witness :
  ∃ h, tasks (run [Post (Ok hello_body) "r1"; Post (Ok hello_body) "r2"]
                  new_channel) !! 1 = Some h ∧
       request_id_of h = Some "r2" ∧ finished h = false.
Proof.
  refine (proj1 (registry_entries_live
                   [Post (Ok hello_body) "r1"; Post (Ok hello_body) "r2"]
                   "r2" 1 _)).
  vm_compute. reflexivity.
Defined.

(** ** Routing *)

(** X2. In every run, if [send] changes a queue at all, then it is the
    queue of a handler that has not been left and that holds exactly the id
    the message resolves to, and the change is the message appended at the
    end.  So a message for one request never enters another request's queue,
    and nothing is queued for a request that is over. *)
Theorem send_reaches_only_addressee tr msg q :
  let ch := run tr new_channel in
  queue_items q (step (Send msg) ch) ≠ queue_items q ch →
  ∃ rid h, _extract_request_id msg = Ok (Some rid) ∧
           tasks ch !! q = Some h ∧ request_id_of h = Some rid ∧
           finished h = false ∧
           queue_items q (step (Send msg) ch) = queue_items q ch ++ [msg].
Proof.
  intros ch Hneq.
  pose proof (run_entries_live tr _ new_channel_entries_live) as Hlive.
  fold ch in Hlive. revert Hneq. simpl.
  destruct (send_cases msg ch) as [->|(rid & q' & Hx & Hq' & ->)]; [done|].
  unfold queue_items at 1 3, queue_put. simpl.
  destruct (decide (q' = q)) as [->|Hne].
  - rewrite lookup_insert_eq. simpl. intros _.
    destruct (Hlive rid q Hq') as (h & Ht & Hrid & Hf). eauto 10.
  - rewrite lookup_insert_ne by done. done.
Qed.

Lemma send_reaches_only_addressee_witness :
  ∃ rid h, _extract_request_id (progress_msg "r1" "thinking..." true)
             = Ok (Some rid) ∧
           tasks (run [Post (Ok hello_body) "r1"] new_channel) !! 0 = Some h ∧
           request_id_of h = Some rid ∧ finished h = false ∧
           queue_items 0 (step (Send (progress_msg "r1" "thinking..." true))
                               (run [Post (Ok hello_body) "r1"] new_channel))
             = queue_items 0 (run [Post (Ok hello_body) "r1"] new_channel)
                 ++ [progress_msg "r1" "thinking..." true].
Proof.
  refine (send_reaches_only_addressee [Post (Ok hello_body) "r1"]
            (progress_msg "r1" "thinking..." true) 0 _).
  vm_compute. discriminate.
Defined.

(** ** Order of delivery *)

Lemma resumes_app tid n k :
  resumes tid (n + k) = resumes tid n ++ resumes tid k.
Proof.
  unfold resumes. by rewrite Nat.mul_add_distr_l, repeat_app.
Qed.

Lemma resumes_S tid n :
  resumes tid (S n)
    = [Resume tid Returns; Resume tid Returns] ++ resumes tid n.
Proof.
  unfold resumes. by replace (2 * S n) with (S (S (2 * n))) by lia.
Qed.

(** X3. The loop serves its queue in order.  With progress messages [ms]
    queued in front of a message [final] that has no flag set, the handler
    writes one "progress" event per message of [ms], in queue order, then
    the "response" event of [final], and returns, deregistered; whatever was
    queued behind [final] stays in the queue, unread. *)
Theorem queue_served_in_order ms : ∀ tid rid out final rest ch,
  tasks ch !! tid = Some (HAwait rid out) →
  queue_items tid ch = ms ++ final :: rest →
  Forall (λ m, flag_set m = true) ms →
  progress_well_shaped final = true → flag_set final = false →
  let ch' := run (resumes tid (S (length ms))) ch in
  tasks ch' !! tid
    = Some (HDone (Some rid)
              (out ++ (delivery_event true <$> ms)
                   ++ [delivery_event false final])
              StreamResponse) ∧
  queue_items tid ch' = rest ∧
  _pending ch' = delete rid (_pending ch).
Proof.
  induction ms as [|m ms IH]; intros tid rid out final rest ch Ht Hq Hms Hw Hf.
  - destruct (delivery_response_terminates tid rid out final rest ch
                Ht Hq Hw Hf) as (Ht1 & Hp1 & Hq1).
    by split_and!.
  - apply Forall_cons in Hms as [Hm Hms].
    destruct (delivery_progress_continues tid rid out m (ms ++ final :: rest)
                ch Ht Hq (flag_set_well_shaped m Hm) Hm) as (Ht1 & Hp1 & Hq1).
    cbn [length]. rewrite resumes_S, run_app.
    destruct (IH tid rid _ final rest _ Ht1 Hq1 Hms Hw Hf)
      as (Ht2 & Hq2 & Hp2).
    split_and!; [|done|by rewrite Hp2, Hp1].
    rewrite Ht2. do 2 f_equal. by rewrite <- app_assoc.
Qed.

Lemma queue_served_in_order_witness :
  let ch := run [Post (Ok hello_body) "r1"; Resume 0 Returns;
                 Resume 0 Returns;
                 Send (progress_msg "r1" "one" true);
                 Send (progress_msg "r1" "two" true);
                 Send (progress_msg "r1" "done" false);
                 Send (progress_msg "r1" "late" true)] new_channel in
  tasks (run (resumes 0 3) ch) !! 0
    = Some (HDone (Some "r1")
              [ {| ev_type := "progress"; ev_content := "one" |};
                {| ev_type := "progress"; ev_content := "two" |};
                {| ev_type := "response"; ev_content := "done" |} ]
              StreamResponse).
Proof.
  intros ch.
  refine (proj1 (queue_served_in_order
            [progress_msg "r1" "one" true; progress_msg "r1" "two" true]
            0 "r1" [] (progress_msg "r1" "done" false)
            [progress_msg "r1" "late" true] ch _ _ _ _ _)).
  - vm_compute. reflexivity.
  - vm_compute. reflexivity.
  - repeat (apply Forall_cons; split; [vm_compute; reflexivity|]).
    apply Forall_nil_2.
  - vm_compute. reflexivity.
  - vm_compute. reflexivity.
Defined.

(** ** Shutdown *)

Lemma drain_lookup qs store q :
  drain qs store !! q = if decide (q ∈ qs) then Some [] else store !! q.
Proof.
  induction qs as [|q' qs IH]; cbn [drain foldr].
  - destruct (decide (q ∈ [])) as [H|H]; [by inversion H|done].
  - fold (drain qs store).
    destruct (decide (q' = q)) as [->|Hne].
    + rewrite lookup_insert_eq.
      destruct (decide (q ∈ q :: qs)) as [H|H]; [done|].
      exfalso. apply H. constructor.
    + rewrite lookup_insert_ne by done. rewrite IH.
      destruct (decide (q ∈ qs)) as [Hin|Hin];
        destruct (decide (q ∈ q' :: qs)) as [H|H]; try done.
      * exfalso. apply H. by constructor.
      * inversion H; by subst.
Qed.

Lemma stop_drains rid q ch :
  _pending ch !! rid = Some q → queue_items q (stop ch) = [].
Proof.
  intros Hq. unfold queue_items, stop. simpl. rewrite drain_lookup.
  rewrite decide_True; [done|].
  apply list_elem_of_fmap. exists (rid, q). split; [done|].
  by apply elem_of_map_to_list.
Qed.

Lemma send_empty_registry msg ch :
  _pending ch = ∅ → step (Send msg) ch = ch.
Proof.
  intros He. simpl.
  destruct (send_cases msg ch) as [->|(rid & q & _ & Hq & _)]; [done|].
  by rewrite He, lookup_empty in Hq.
Qed.

Lemma sends_empty_registry msgs ch :
  _pending ch = ∅ → run (Send <$> msgs) ch = ch.
Proof.
  intros He. induction msgs as [|m msgs IH]; [done|].
  simpl. fold (step (Send m) ch). by rewrite send_empty_registry.
Qed.

Lemma resume_nothing_queued tid rid out ch :
  tasks ch !! tid = Some (HAwait rid out) → queue_items tid ch = [] →
  step (Resume tid Returns) ch = ch.
Proof.
  intros Ht Hq. cbn [step]. rewrite Ht. cbn [resume]. rewrite Hq.
  destruct ch as [r p qs ts]. unfold set_tasks. simpl in *.
  by rewrite list_insert_id.
Qed.

(** X4. After [stop], a handler that was waiting on its registered queue
    gets nothing more: the messages queued for it are discarded, every
    message sent afterwards is dropped, and a get on its queue has nothing
    to return, so the handler stays suspended with its stream as it was
    (only the timeout or an exception can end it). *)
Theorem after_stop_nothing_delivered tid rid out msgs ch :
  tasks ch !! tid = Some (HAwait rid out) →
  _pending ch !! rid = Some tid →
  let ch' := run (Stop :: (Send <$> msgs) ++ [Resume tid Returns]) ch in
  tasks ch' !! tid = Some (HAwait rid out) ∧
  queue_items tid ch' = [] ∧
  _pending ch' = ∅.
Proof.
  intros Ht Hp ch'. subst ch'.
  change (Stop :: (Send <$> msgs) ++ [Resume tid Returns])
    with ([Stop] ++ (Send <$> msgs) ++ [Resume tid Returns]).
  rewrite !run_app.
  change (run [Stop] ch) with (stop ch).
  rewrite sends_empty_registry by done.
  pose proof (stop_drains rid tid ch Hp) as Hq.
  change (run [Resume tid Returns] (stop ch))
    with (step (Resume tid Returns) (stop ch)).
  by rewrite (resume_nothing_queued tid rid out).
Qed.

Lemma after_stop_nothing_delivered_witness :
  tasks (run (Stop :: (Send <$> [progress_msg "r1" "late" false])
                ++ [Resume 0 Returns])
           (run [Post (Ok hello_body) "r1"; Resume 0 Returns;
                 Resume 0 Returns;
                 Send (progress_msg "r1" "queued" false)] new_channel)) !! 0
    = Some (HAwait "r1" []).
Proof.
  refine (proj1 (after_stop_nothing_delivered 0 "r1" []
                   [progress_msg "r1" "late" false] _ _ _)).
  - vm_compute. reflexivity.
  - vm_compute. reflexivity.
Defined.

(** ** Which requests are accepted *)

Lemma py_or_truthy a b : truthy (py_or a b) = truthy a || truthy b.
Proof. unfold py_or. by destruct (truthy a) eqn:E; rewrite ?E. Qed.

Lemma merge_request_id_cases metadata rid :
  (relay_assignable metadata = true ∧
   ∃ md, merge_request_id metadata rid = Ok md) ∨
  (relay_assignable metadata = false ∧
   merge_request_id metadata rid = Raise TypeError).
Proof.
  unfold relay_assignable, merge_request_id, setdefault, dict_get.
  destruct (_normalize_metadata metadata !! "http_relay") as [v|] eqn:E.
  - rewrite E. destruct v; simpl; eauto.
  - rewrite lookup_insert_eq. simpl. eauto.
Qed.

Lemma handle_post_object body rid tid ch :
  handle_post (Ok (PDict body)) rid tid ch =
    if negb (has_truthy body "senderId" "sender_id")
       || negb (has_truthy body "chatId" "chat_id")
       || is_None (dict_get body "content" PNone)
    then (ch, HDone None [] missing_fields_response)
    else match merge_request_id (caller_metadata_of body) rid with
         | Raise e => (ch, HDone None [] (Raised e))
         | Ok md => (register rid tid ch, HPrepare rid md)
         end.
Proof.
  unfold handle_post, has_truthy, caller_metadata_of. simpl.
  by rewrite !py_or_truthy.
Qed.

(** X6. A request is registered exactly when its body carries a truthy
    sender id and a truthy conversation id (under either spelling), a
    content that is not [None], and metadata whose [http_relay] entry, if
    any, is a mapping.  So an empty string or [0] as sender id is refused,
    while an empty content is accepted. *)
Theorem post_registers_iff_acceptable body rid ch :
  (∃ md, tasks (step (Post (Ok (PDict body)) rid) ch) !! length (tasks ch)
           = Some (HPrepare rid md)) ↔
  acceptable body = true.
Proof.
  cbn [step]. rewrite handle_post_object. unfold acceptable.
  destruct (has_truthy body "senderId" "sender_id");
    destruct (has_truthy body "chatId" "chat_id");
    destruct (is_None (dict_get body "content" PNone)); simpl;
    try (rewrite lookup_app_r, Nat.sub_diag by done; simpl;
         split; [by intros [md [=]]|done]).
  destruct (merge_request_id_cases (caller_metadata_of body) rid)
    as [[-> [md ->]]|[-> ->]]; simpl;
    rewrite lookup_app_r, Nat.sub_diag by done; simpl.
  - split; eauto.
  - split; [by intros [md [=]]|done].
Qed.

Lemma post_registers_iff_acceptable_witness :
  ∃ md, tasks (step (Post (Ok (PDict empty_content_body)) "r1") new_channel)
          !! 0 = Some (HPrepare "r1" md).
Proof.
  refine (proj2 (post_registers_iff_acceptable empty_content_body "r1"
                   new_channel) _).
  vm_compute. reflexivity.
Defined.

(** X7. If neither spelling of the sender id, or neither spelling of the
    conversation id, holds a truthy value, or the content is missing or
    [null], the answer is the 400 "Missing sender_id/chat_id/content":
    values that are present but empty are treated like missing ones.  The
    channel is left as it was. *)
Theorem falsy_fields_rejected body rid ch :
  has_truthy body "senderId" "sender_id" = false ∨
  has_truthy body "chatId" "chat_id" = false ∨
  dict_get body "content" PNone = PNone →
  step (Post (Ok (PDict body)) rid) ch
    = set_tasks (λ ts, ts ++ [HDone None [] missing_fields_response]) ch.
Proof.
  intros H. cbn [step]. rewrite handle_post_object.
  destruct H as [->| [->| ->]]; simpl; [done| |];
    by rewrite orb_true_r.
Qed.

Lemma falsy_fields_rejected_witness :
  step (Post (Ok (PDict empty_sender_body)) "r1") new_channel
    = set_tasks (λ ts, ts ++ [HDone None [] missing_fields_response])
                new_channel.
Proof.
  refine (falsy_fields_rejected empty_sender_body "r1" new_channel _).
  left. vm_compute. reflexivity.
Defined.

(** X8. A request whose required fields are fine but whose metadata holds
    an [http_relay] entry that is not a mapping makes the handler raise
    [TypeError] at the assignment of the request id: no 400 is returned,
    nothing is registered and no stream is opened. *)
Theorem non_mapping_relay_raises body rid ch :
  has_truthy body "senderId" "sender_id" = true →
  has_truthy body "chatId" "chat_id" = true →
  dict_get body "content" PNone ≠ PNone →
  relay_assignable (caller_metadata_of body) = false →
  step (Post (Ok (PDict body)) rid) ch
    = set_tasks (λ ts, ts ++ [HDone None [] (Raised TypeError)]) ch.
Proof.
  intros Hs Hc Hcontent Hrelay. cbn [step]. rewrite handle_post_object.
  rewrite Hs, Hc. simpl.
  destruct (dict_get body "content" PNone); try done; simpl;
    by destruct (merge_request_id_cases (caller_metadata_of body) rid)
      as [[? _]|[_ ->]]; [congruence|].
Qed.

Lemma non_mapping_relay_raises_witness :
  step (Post (Ok (relay_body (PDict {[ "http_relay" := PStr "edge-1" ]})))
             "r1") new_channel
    = set_tasks (λ ts, ts ++ [HDone None [] (Raised TypeError)]) new_channel.
Proof.
  refine (non_mapping_relay_raises _ "r1" new_channel _ _ _ _).
  - vm_compute. reflexivity.
  - vm_compute. reflexivity.
  - vm_compute. discriminate.
  - vm_compute. reflexivity.
Defined.

(** X9. A body that cannot be read as JSON, or that is not a JSON object,
    is answered with status 400 and its own error text; the channel is left
    as it was. *)
Theorem malformed_body_rejected json rid ch :
  (∀ body, json ≠ Ok (PDict body)) →
  (∀ e, json = Raise e → is_Exception e = true) →
  step (Post json rid) ch
    = set_tasks
        (λ ts, ts ++ [HDone None []
                        (JsonResponse 400
                           match json with
                           | Ok _ => "Payload must be an object"
                           | Raise _ => "Invalid JSON body"
                           end)]) ch.
Proof.
  intros Hobj Hexc. cbn [step]. unfold handle_post, _parse_request_body.
  destruct json as [v|e].
  - destruct v; try done. by destruct (Hobj d).
  - by rewrite (Hexc e).
Qed.

Lemma malformed_body_rejected_witness :
  step (Post (Ok (PList [PInt 1])) "r1") new_channel
    = set_tasks
        (λ ts, ts ++ [HDone None []
                        (JsonResponse 400 "Payload must be an object")])
        new_channel.
Proof.
  refine (malformed_body_rejected (Ok (PList [PInt 1])) "r1" new_channel _ _).
  - discriminate.
  - discriminate.
Defined.

(** ** The correlation id on its way out and back *)

Lemma merge_relay_lookup metadata rid md :
  merge_request_id metadata rid = Ok md →
  (∃ relay, md !! "http_relay" = Some (PDict relay) ∧
            relay !! "request_id" = Some (PStr rid)) ∧
  ∀ k, k ≠ "http_relay" → md !! k = _normalize_metadata metadata !! k.
Proof.
  unfold merge_request_id, setdefault, dict_get.
  destruct (_normalize_metadata metadata !! "http_relay") as [v|] eqn:E.
  - rewrite E. destruct v; simpl; try done. intros [= <-]. split.
    + eexists. split; [by rewrite lookup_insert_eq|].
      by rewrite lookup_insert_eq.
    + intros k Hk. by rewrite lookup_insert_ne.
  - rewrite lookup_insert_eq. simpl. intros [= <-]. split.
    + eexists. split; [by rewrite lookup_insert_eq|].
      by rewrite lookup_insert_eq.
    + intros k Hk. by rewrite !lookup_insert_ne.
Qed.

Lemma merge_non_mapping body rid :
  is_dict (dict_get body "metadata" PNone) = false →
  merge_request_id (caller_metadata_of body) rid
    = Ok {[ "http_relay" := PDict {[ "request_id" := PStr rid ]} ]}.
Proof.
  intros Hd. unfold caller_metadata_of, py_or.
  assert (_normalize_metadata
            (if truthy (dict_get body "metadata" PNone)
             then dict_get body "metadata" PNone else PDict ∅) = ∅) as Hn.
  { destruct (truthy _); [|done].
    by destruct (dict_get body "metadata" PNone). }
  unfold merge_request_id. rewrite Hn.
  unfold setdefault, dict_get. rewrite lookup_empty, lookup_insert_eq.
  simpl. by rewrite insert_insert_eq, !insert_empty.
Qed.

(** X10. When a request with a truthy sender id, a truthy conversation id
    and a content carries metadata that is not a mapping (a list, a string,
    a number), the handler does not refuse it: it registers the request and
    goes on to open the stream, and the metadata it holds for publishing is
    just the relay's own [{"http_relay": {"request_id": id}}]; what the
    caller sent as metadata is dropped. *)
Theorem non_mapping_metadata_dropped body rid ch :
  has_truthy body "senderId" "sender_id" = true →
  has_truthy body "chatId" "chat_id" = true →
  dict_get body "content" PNone ≠ PNone →
  is_dict (dict_get body "metadata" PNone) = false →
  step (Post (Ok (PDict body)) rid) ch
    = set_tasks
        (λ ts, ts ++ [HPrepare rid
                        {[ "http_relay" :=
                             PDict {[ "request_id" := PStr rid ]} ]}])
        (register rid (length (tasks ch)) ch).
Proof.
  intros Hs Hc Hcontent Hd. cbn [step].
  rewrite handle_post_object, Hs, Hc, (merge_non_mapping body rid Hd).
  by destruct (dict_get body "content" PNone).
Qed.

Lemma non_mapping_metadata_dropped_witness :
  step (Post (Ok (relay_body (PList [PStr "x"]))) "r1") new_channel
    = set_tasks
        (λ ts, ts ++ [HPrepare "r1"
                        {[ "http_relay" :=
                             PDict {[ "request_id" := PStr "r1" ]} ]}])
        (register "r1" 0 new_channel).
Proof.
  refine (non_mapping_metadata_dropped _ "r1" new_channel _ _ _ _).
  - vm_compute. reflexivity.
  - vm_compute. reflexivity.
  - vm_compute. discriminate.
  - vm_compute. reflexivity.
Defined.

Lemma merge_then_extract caller rid md c :
  merge_request_id caller rid = Ok md →
  rid ≠ "" →
  namespace_request_id
    (dict_get (_normalize_metadata caller) "progress" (PDict ∅)) = Ok None →
  _extract_request_id {| content := c; metadata := Some md |} = Ok (Some rid).
Proof.
  intros Hm Hrid Hprog.
  destruct (merge_relay_lookup caller rid md Hm)
    as [(relay & Hrelay & Hid) Hother].
  assert (dict_get md "progress" (PDict ∅)
          = dict_get (_normalize_metadata caller) "progress" (PDict ∅)) as E.
  { unfold dict_get. by rewrite (Hother "progress"). }
  rewrite extract_unfold. cbn [metadata].
  change (default ∅ (Some md)) with md. cbv zeta.
  rewrite E, Hprog. cbn [mbind exc_bind].
  unfold dict_get. rewrite Hrelay.
  unfold namespace_request_id, py_get, dict_get. cbn [is_dict].
  rewrite Hid. cbn [mbind exc_bind]. by rewrite usable_request_id_str.
Qed.

(** X11. Round trip of the correlation id.  When the id merged into a
    request's metadata is not empty and the caller's metadata has no usable
    id in its progress namespace, a message that carries the merged metadata
    back resolves to that id. *)
Theorem merged_id_round_trip caller rid md c :
  merge_request_id caller rid = Ok md →
  rid ≠ "" →
  namespace_request_id
    (dict_get (_normalize_metadata caller) "progress" (PDict ∅)) = Ok None →
  _extract_request_id {| content := c; metadata := Some md |} = Ok (Some rid).
Proof. apply merge_then_extract. Qed.

Lemma merged_id_round_trip_witness :
  ∃ md, merge_request_id (PDict caller_metadata) "r1" = Ok md ∧
        _extract_request_id {| content := "hi"; metadata := Some md |}
          = Ok (Some "r1").
Proof.
  eexists. split; [vm_compute; reflexivity|].
  refine (merged_id_round_trip (PDict caller_metadata) "r1" _ "hi" _ _ _).
  - vm_compute. reflexivity.
  - discriminate.
  - vm_compute. reflexivity.
Defined.

Lemma open_stream tid rid md ch :
  tasks ch !! tid = Some (HPrepare rid md) →
  let ch' := run [Resume tid Returns; Resume tid Returns] ch in
  tasks ch' !! tid = Some (HAwait rid []) ∧
  _pending ch' = _pending ch ∧ queues ch' = queues ch.
Proof.
  intros Ht. pose proof (lookup_lt_Some _ _ _ Ht) as Hlt.
  simpl. rewrite Ht. simpl. rewrite list_lookup_insert_eq by done. simpl.
  by rewrite list_lookup_insert_eq by (by rewrite length_insert).
Qed.

(** X12. A request served end to end.  For an acceptable body whose
    metadata brings no ["progress"] entry, and a non-empty id: once the
    stream is open and the request published, a reply that carries the
    published metadata back is routed to the request, written as the
    single "response" event of the stream, and the handler returns with its
    registry entry removed. *)
Theorem echo_ends_stream body rid c ch :
  acceptable body = true →
  rid ≠ "" →
  _normalize_metadata (caller_metadata_of body) !! "progress" = None →
  ∃ md, merge_request_id (caller_metadata_of body) rid = Ok md ∧
    let tid := length (tasks ch) in
    let ch' := run [Post (Ok (PDict body)) rid;
                    Resume tid Returns; Resume tid Returns;
                    Send {| content := c; metadata := Some md |};
                    Resume tid Returns; Resume tid Returns] ch in
    tasks ch' !! tid
      = Some (HDone (Some rid)
                [{| ev_type := "response"; ev_content := c |}]
                StreamResponse) ∧
    _pending ch' !! rid = None.
Proof.
  intros Hacc Hrid Hprog.
  unfold acceptable in Hacc.
  apply andb_prop in Hacc as [Hacc Hrelay].
  apply andb_prop in Hacc as [Hacc Hcontent].
  apply andb_prop in Hacc as [Hsender Hchat].
  destruct (merge_request_id_cases (caller_metadata_of body) rid)
    as [[_ [md Hmd]]|[? _]]; [|congruence].
  exists md. split; [done|]. intros tid.
  set (reply := {| content := c; metadata := Some md |}).
  assert (step (Post (Ok (PDict body)) rid) ch
          = set_tasks (λ ts, ts ++ [HPrepare rid md]) (register rid tid ch))
    as Hpost.
  { cbn [step]. rewrite handle_post_object, Hsender, Hchat.
    apply negb_true_iff in Hcontent. rewrite Hcontent. simpl.
    by rewrite Hmd. }
  change (run _ ch) with
    (run [Resume tid Returns; Resume tid Returns]
       (step (Send reply)
          (run [Resume tid Returns; Resume tid Returns]
             (step (Post (Ok (PDict body)) rid) ch)))).
  rewrite Hpost.
  set (ch1 := set_tasks _ (register rid tid ch)).
  assert (tasks ch1 !! tid = Some (HPrepare rid md)) as Ht1.
  { subst ch1. simpl. by rewrite lookup_app_r, Nat.sub_diag. }
  destruct (open_stream tid rid md ch1 Ht1) as (Ht2 & Hp2 & Hq2).
  set (ch2 := run [Resume tid Returns; Resume tid Returns] ch1) in *.
  assert (_pending ch2 !! rid = Some tid) as Hreg.
  { rewrite Hp2. subst ch1. simpl. by rewrite lookup_insert_eq. }
  assert (queue_items tid ch2 = []) as Hempty.
  { unfold queue_items. rewrite Hq2. subst ch1. simpl.
    by rewrite lookup_insert_eq. }
  assert (addressed rid reply) as Haddr.
  { apply (merge_then_extract (caller_metadata_of body)); [done..|].
    unfold dict_get. rewrite Hprog.
    by unfold namespace_request_id, py_get, dict_get. }
  rewrite (send_addressed rid tid reply ch2 Haddr Hreg).
  assert (md !! "progress" = None) as Hmdp.
  { destruct (merge_relay_lookup _ _ _ Hmd) as [_ Hother].
    by rewrite (Hother "progress"). }
  assert (queue_items tid (queue_put tid reply ch2) = [reply]) as Hq.
  { unfold queue_items at 1, queue_put. simpl.
    by rewrite lookup_insert_eq, Hempty. }
  destruct (delivery_response_terminates tid rid [] reply []
              (queue_put tid reply ch2) Ht2 Hq) as (Ht3 & Hp3 & _).
  - unfold progress_well_shaped. simpl. by rewrite Hmdp.
  - unfold flag_set, progress_flag. simpl. by rewrite Hmdp.
  - split; [done|]. rewrite Hp3. apply lookup_delete_eq.
Qed.

Lemma echo_ends_stream_witness :
  ∃ md, merge_request_id (caller_metadata_of empty_content_body) "r1" = Ok md ∧
    tasks (run [Post (Ok (PDict empty_content_body)) "r1";
                Resume 0 Returns; Resume 0 Returns;
                Send {| content := "pong"; metadata := Some md |};
                Resume 0 Returns; Resume 0 Returns] new_channel) !! 0
      = Some (HDone (Some "r1")
                [{| ev_type := "response"; ev_content := "pong" |}]
                StreamResponse).
Proof.
  destruct (echo_ends_stream empty_content_body "r1" "pong" new_channel)
    as (md & Hmd & Ht & _).
  - vm_compute. reflexivity.
  - discriminate.
  - vm_compute. reflexivity.
  - exists md. split; [exact Hmd|exact Ht].
Defined.

(** ** Failures after the stream is open *)

(** X13. If publishing the request raises an [Exception], the client is
    told so in the stream and the exception goes no further: the handler
    writes one "response" event with the content "I could not process this
    message. Please retry." as the only event, returns the stream and
    removes its registry entry; its queue is not read. *)
Theorem publish_failure_reported tid rid md e ch :
  tasks ch !! tid = Some (HPublish rid md) →
  is_Exception e = true →
  let ch' := run [Resume tid (Raises e); Resume tid Returns] ch in
  tasks ch' !! tid
    = Some (HDone (Some rid)
              [{| ev_type := "response";
                  ev_content :=
                    "I could not process this message. Please retry." |}]
              StreamResponse) ∧
  _pending ch' = delete rid (_pending ch) ∧
  queues ch' = queues ch.
Proof.
  intros Ht He. pose proof (lookup_lt_Some _ _ _ Ht) as Hlt.
  simpl. rewrite Ht. simpl. rewrite He. simpl.
  rewrite list_lookup_insert_eq by done. simpl.
  by rewrite list_lookup_insert_eq by (by rewrite length_insert).
Qed.

Lemma publish_failure_reported_witness :
  tasks (run [Resume 0 (Raises (OtherError "RuntimeError")); Resume 0 Returns]
             (run [Post (Ok hello_body) "r1"; Resume 0 Returns] new_channel))
    !! 0 = Some (HDone (Some "r1")
                   [{| ev_type := "response";
                       ev_content :=
                         "I could not process this message. Please retry." |}]
                   StreamResponse).
Proof.
  refine (proj1 (publish_failure_reported 0 "r1" _
                   (OtherError "RuntimeError") _ _ _)).
  - vm_compute. reflexivity.
  - reflexivity.
Defined.

(** X14. Cancellation is never swallowed.  At whichever await a handler is
    suspended, also while publishing, a [CancelledError] leaves it at once:
    nothing more is written, not even an event whose write was under way,
    the registry entry is removed, and the error goes on to the caller. *)
Theorem cancellation_propagates tid h rid ch :
  tasks ch !! tid = Some h →
  finished h = false →
  request_id_of h = Some rid →
  let ch' := step (Resume tid (Raises CancelledError)) ch in
  tasks ch' !! tid = Some (HDone (Some rid) (written h) (Raised CancelledError)) ∧
  _pending ch' = delete rid (_pending ch) ∧
  queues ch' = queues ch.
Proof.
  intros Ht Hf Hrid. pose proof (lookup_lt_Some _ _ _ Ht) as Hlt.
  cbn [step]. rewrite Ht.
  destruct h as [r md|r md|r out|r out ev k|orid out res]; try done;
    simpl in Hrid; injection Hrid as ->; simpl;
    by rewrite list_lookup_insert_eq.
Qed.

Lemma cancellation_propagates_witness :
  tasks (step (Resume 0 (Raises CancelledError))
           (run [Post (Ok hello_body) "r1"; Resume 0 Returns] new_channel))
    !! 0 = Some (HDone (Some "r1") [] (Raised CancelledError)).
Proof.
  refine (proj1 (cancellation_propagates 0 (HPublish "r1" _) "r1" _ _ _ _)).
  - vm_compute. reflexivity.
  - reflexivity.
  - reflexivity.
Defined.

(** ** The shape of a returned stream *)

Lemma returned_stream_shape_witness :
  ∃ out' ev,
    [ {| ev_type := "progress"; ev_content := "thinking..." |};
      {| ev_type := "response"; ev_content := "hello back" |} ]
      = out' ++ [ev] ∧ all_progress out' ∧ ev_type ev = "response".
Proof.
  refine (returned_stream_shape scenario 0 (Some "r1") _ _).
  vm_compute. reflexivity.
Defined.

(** ** Framing of events *)

Lemma encode_app l1 l2 :
  encode (l1 ++ l2) = b1 ← encode l1 ; b2 ← encode l2 ; Ok (b1 ++ b2).
Proof.
  induction l1 as [|c l1 IH]; simpl.
  - by destruct (encode l2).
  - destruct (utf8_char c) as [b|e]; simpl; [|done].
    rewrite IH. destruct (encode l1) as [b1|e1]; simpl; [|done].
    destruct (encode l2) as [b2|e2]; simpl; [|done].
    by rewrite app_assoc.
Qed.

Lemma encode_ascii l :
  Forall (λ c, (c < 128)%N) l → encode l = Ok l.
Proof.
  induction 1 as [|c l Hc _ IH]; [done|].
  simpl. unfold utf8_char.
  destruct (N.ltb_spec c 128); [|lia]. simpl. by rewrite IH.
Qed.

Lemma hex_digit_ascii n :
  (n < 16)%N → (hex_digit n < 128)%N ∧ hex_digit n ≠ LF ∧ hex_digit n ≠ CR.
Proof. unfold hex_digit, LF, CR. destruct (N.ltb_spec n 10); lia. Qed.

Ltac byte_not_line_break :=
  repeat match goal with
         | |- context [N.modulo ?a ?b] => generalize (N.modulo a b); intro
         | |- context [N.div ?a ?b] => generalize (N.div a b); intro
         end;
  lia.

Ltac escaped_letter :=
  eexists; split; [reflexivity|]; repeat constructor; discriminate.

(** One escaped character, encoded: an exception for a surrogate, bytes
    without a line break for everything else. *)
Lemma encode_escape_char c :
  if is_surrogate c
  then encode (json_escape_char c) = Raise (OtherError "UnicodeEncodeError")
  else ∃ bs, encode (json_escape_char c) = Ok bs ∧ no_line_break bs.
Proof.
  unfold json_escape_char, QUOTE, BACKSLASH, LF, CR.
  destruct (N.eqb_spec c 34) as [->|?]; [escaped_letter|].
  destruct (N.eqb_spec c 92) as [->|?]; [escaped_letter|].
  destruct (N.eqb_spec c 8) as [->|?]; [escaped_letter|].
  destruct (N.eqb_spec c 12) as [->|?]; [escaped_letter|].
  destruct (N.eqb_spec c 10) as [->|?]; [escaped_letter|].
  destruct (N.eqb_spec c 13) as [->|?]; [escaped_letter|].
  destruct (N.eqb_spec c 9) as [->|?]; [escaped_letter|].
  unfold is_surrogate, no_line_break.
  destruct (N.ltb_spec c 32) as [Hlt|Hge].
  - destruct (N.leb_spec 55296 c); [lia|]. cbn [andb].
    assert (c / 16 < 16)%N as H1 by (apply N.Div0.div_lt_upper_bound; lia).
    assert (c mod 16 < 16)%N as H2 by (apply N.mod_upper_bound; lia).
    destruct (hex_digit_ascii _ H1) as (? & ? & ?).
    destruct (hex_digit_ascii _ H2) as (? & ? & ?).
    change (literal "u00") with [117; 48; 48]%N.
    eexists. split.
    + apply encode_ascii. repeat constructor; done.
    + unfold LF, CR in *. repeat constructor; done.
  - cbn [encode]. unfold utf8_char, is_surrogate, LF, CR.
    destruct (N.ltb_spec c 128).
    { destruct (N.leb_spec 55296 c); [lia|]. cbn [andb mbind exc_bind app].
      eexists. split; [done|].
      repeat (apply Forall_cons; split; [split; byte_not_line_break|]).
      apply Forall_nil_2. }
    destruct (N.ltb_spec c 2048).
    { destruct (N.leb_spec 55296 c); [lia|]. cbn [andb mbind exc_bind app].
      eexists. split; [done|].
      repeat (apply Forall_cons; split; [split; byte_not_line_break|]).
      apply Forall_nil_2. }
    destruct (N.leb_spec 55296 c); destruct (N.leb_spec c 57343);
      cbn [andb mbind exc_bind app]; try done;
      destruct (N.ltb_spec c 65536); cbn [andb mbind exc_bind app];
        (eexists; split; [done|];
         repeat (apply Forall_cons; split; [split; byte_not_line_break|]);
         apply Forall_nil_2).
Qed.

Lemma encode_escape content :
  if existsb is_surrogate content
  then encode (json_escape content) = Raise (OtherError "UnicodeEncodeError")
  else ∃ bs, encode (json_escape content) = Ok bs ∧ no_line_break bs.
Proof.
  induction content as [|c content IH]; simpl.
  - exists []. split; [done|]. constructor.
  - rewrite encode_app. pose proof (encode_escape_char c) as Hc.
    destruct (is_surrogate c); simpl.
    + by rewrite Hc.
    + destruct Hc as (b & -> & Hb). simpl.
      destruct (existsb is_surrogate content).
      * by rewrite IH.
      * destruct IH as (bs & -> & Hbs). simpl.
        eexists. split; [done|]. by apply Forall_app.
Qed.

(** X17. What [_write_sse_event] hands to the transport for a "progress"
    or "response" event.  If the content holds a surrogate code point,
    [.encode()] raises [UnicodeEncodeError] and there are no bytes to
    write.  For every other content the bytes are exactly the line
    [event: <type>], a line feed, the line [data: {"content": "<body>"}] and
    two line feeds, where the body has neither a line feed nor a carriage
    return, whatever line breaks the content has: content cannot end the
    event early or start another one. *)
Theorem sse_frame_is_one_event event content :
  event = literal "progress" ∨ event = literal "response" →
  if existsb is_surrogate content
  then _write_sse_event event content
         = Raise (OtherError "UnicodeEncodeError")
  else ∃ body,
    _write_sse_event event content
      = Ok (literal "event: " ++ event ++ [LF]
              ++ literal "data: {" ++ [QUOTE] ++ literal "content" ++ [QUOTE]
              ++ literal ": " ++ [QUOTE] ++ body ++ [QUOTE] ++ literal "}"
              ++ [LF; LF]) ∧
    no_line_break body.
Proof.
  intros Hev. unfold _write_sse_event, json_content, json_string.
  pose proof (encode_escape content) as Hc.
  set (head := literal "event: " ++ event ++ [LF] ++ literal "data: "
                 ++ literal "{" ++ [QUOTE]).
  set (key := literal "content" ++ [QUOTE] ++ literal ": " ++ [QUOTE]).
  set (tail := [QUOTE] ++ literal "}" ++ [LF; LF]).
  assert (encode head = Ok head) as Hhead
    by (subst head; destruct Hev as [-> | ->]; reflexivity).
  assert (encode key = Ok key) as Hkey by reflexivity.
  assert (encode tail = Ok tail) as Htail by reflexivity.
  assert (json_escape (literal "content") = literal "content") as ->
    by reflexivity.
  replace (literal "event: " ++ event ++ [LF] ++ literal "data: "
             ++ (literal "{" ++ ([QUOTE] ++ literal "content" ++ [QUOTE])
                   ++ literal ": "
                   ++ ([QUOTE] ++ json_escape content ++ [QUOTE])
                   ++ literal "}") ++ [LF; LF])
    with (head ++ key ++ json_escape content ++ tail)
    by (subst head key tail; by rewrite <- !app_assoc).
  rewrite (encode_app head), Hhead. cbn [mbind exc_bind].
  rewrite (encode_app key), Hkey. cbn [mbind exc_bind].
  rewrite (encode_app (json_escape content)), Htail.
  destruct (existsb is_surrogate content).
  - by rewrite Hc.
  - destruct Hc as (body & -> & Hbody). exists body. split; [|done].
    cbn [mbind exc_bind]. f_equal.
    subst head key tail. by rewrite <- !app_assoc.
Qed.

Lemma sse_frame_is_one_event_witness :
  ∃ body,
    _write_sse_event (literal "response") multi_line_content
      = Ok (literal "event: " ++ literal "response" ++ [LF]
              ++ literal "data: {" ++ [QUOTE] ++ literal "content" ++ [QUOTE]
              ++ literal ": " ++ [QUOTE] ++ body ++ [QUOTE] ++ literal "}"
              ++ [LF; LF]) ∧
    no_line_break body.
Proof.
  refine (sse_frame_is_one_event (literal "response") multi_line_content _).
  right. reflexivity.
Defined.

Example multi_line_content_bytes :
  _write_sse_event (literal "response") multi_line_content
    = Ok (literal "event: response" ++ [LF]
            ++ literal "data: {" ++ [QUOTE] ++ literal "content" ++ [QUOTE]
            ++ literal ": " ++ [QUOTE] ++ literal "\n\nevent: response"
            ++ [QUOTE] ++ literal "}" ++ [LF; LF]).
Proof. vm_compute. reflexivity. Qed.

Example lone_surrogate_raises :
  _write_sse_event (literal "response") (literal "hi" ++ [55357%N])
    = Raise (OtherError "UnicodeEncodeError").
Proof. vm_compute. reflexivity. Qed.
